(** * Nested Lexical editor: synchronisation between an mdast node and a
      child editing surface

    A shallow embedding of [src/plugins/core/NestedLexicalEditor.tsx] and of
    the top-level wrapper ([standardConfig] / [Wrapper]), followed by the
    properties of the synchronisation contract.

    Conventions of the embedding
    - a JavaScript computation that may throw returns a [Result];
    - the parent editing surface, the console and the record of calls made
      to the caller-supplied updater are threaded explicitly ([World]);
    - the closure given to [editor.update] is a state-and-error computation
      over the pending editor state ([Update]);
    - the import/export pipeline and the visitor registries are not part of
      the embedded files: they are fields of a [Realm] record, the values
      the component reads through [corePluginHooks.useEmitterValues]. *)

From Stdlib Require Import String List Bool Arith Lia.
From stdpp Require Import base option list strings.
Import ListNotations.
Local Open Scope string_scope.
Local Open Scope list_scope.
Set Warnings "-register-all".

(* ===================================================================== *)
(** ** JavaScript values that matter here: errors and results            *)
(* ===================================================================== *)

Module Js.

(** [new Error(message)], [TypeError], ... *)
Record Error := MkError { name : string; message : string }.

Inductive Result (A : Type) : Type :=
| Ok (a : A)
| Throw (e : Error).
Arguments Ok {A} a.
Arguments Throw {A} e.

Definition bind {A B} (r : Result A) (k : A -> Result B) : Result B :=
  match r with
  | Ok a => k a
  | Throw e => Throw e
  end.

Definition throws {A} (r : Result A) : Prop :=
  match r with Ok _ => False | Throw _ => True end.

Definition returns {A} (r : Result A) : Prop :=
  match r with Ok _ => True | Throw _ => False end.

(** Reading a property of [undefined] or [null]. *)
Definition TypeError_undefined (prop : string) : Error :=
  MkError "TypeError" ("Cannot read properties of undefined (reading '" +:+ prop +:+ "')").

Definition TypeError_null (prop : string) : Error :=
  MkError "TypeError" ("Cannot read properties of null (reading '" +:+ prop +:+ "')").

(** [console.error] appends to the console; it never throws. *)
Definition Console := list Error.
Definition console_error (e : Error) (c : Console) : Console := c ++ [e].

End Js.
Import Js.

Declare Scope js_scope.
Delimit Scope js_scope with js.
Notation "'let!' x ':=' c1 'in' c2" := (Js.bind c1 (fun x => c2))
  (at level 10, x name, c1 at level 100, c2 at level 200) : js_scope.
Local Open Scope js_scope.

(* ===================================================================== *)
(** ** mdast: the abstract syntax tree                                    *)
(* ===================================================================== *)

Module Mdast.

(** A content node: its [type] tag, the [value] of a literal, and its
    [children].  A node without a [children] property is modelled with
    the empty list. *)
Inductive Content : Type :=
  MkContent { type : string; value : option string; children : list Content }.

(** [{ type: 'root', children }] *)
Record Root := MkRoot { root_children : list Content }.

(** [{ type: 'paragraph', children }] *)
Definition paragraph (cs : list Content) : Content := MkContent "paragraph" None cs.

(** [{ type: 'text', value }] *)
Definition text (s : string) : Content := MkContent "text" (Some s) [].

Fixpoint size (c : Content) : nat :=
  S (list_sum (map size (children c))).

Fixpoint depth (c : Content) : nat :=
  S (list_max (map depth (children c))).

(** The string [s] is the [value] of the node or of a node below it. *)
Fixpoint has_text (s : string) (c : Content) : bool :=
  match c with
  | MkContent _ v cs =>
      match v with Some x => String.eqb x s | None => false end
      || existsb (has_text s) cs
  end.

End Mdast.

(* ===================================================================== *)
(** ** The host engine, as far as the adapter uses it                     *)
(* ===================================================================== *)

Module Lexical.

(** *** Child surface: the tree under [$getRoot()] *)

Inductive LexicalNode : Type :=
  MkNode { node_type : string; node_text : option string; node_children : list LexicalNode }.

(** [$createParagraphNode()] *)
Definition createParagraphNode : LexicalNode := MkNode "paragraph" None [].

(** The string [s] is the text of the node or of a node below it. *)
Fixpoint node_has_text (s : string) (n : LexicalNode) : bool :=
  match n with
  | MkNode _ t cs =>
      match t with Some x => String.eqb x s | None => false end
      || existsb (node_has_text s) cs
  end.

(** The state of an editing surface is the list of children of its root.
    [createEditor] starts with an empty root. *)
Definition RootChildren := list LexicalNode.
Definition createEditor : RootChildren := [].

(** [$getRoot().clear()] *)
Definition clear (root : RootChildren) : RootChildren := [].

(** *** Parent surface *)

Definition NodeKey := string.

(** The decorator node that embeds a nested editor: it is found by its
    key and carries the mdast node it stands for. *)
Record DecoratorNode := MkDecorator { getKey : NodeKey; getMdastNode : Mdast.Content }.

(** The selection of the parent surface, as far as the adapter moves it:
    none, or collapsed on the parent element at an offset among its
    children, which is what [parent.select(i, i)] leaves.  Selections
    inside a node are not represented. *)
Inductive Selection :=
| SelectionNone
| SelectionOnParent (offset : nat).

(** The children of the parent element in document order, and the
    selection.  The children are decorator nodes, like the owning node. *)
Record EditorState := MkEditorState {
  nodes : list DecoratorNode;
  selection : Selection
}.

(** One committed update: its tags and the state it produced. *)
Record Commit := MkCommit { commit_tags : list string; commit_state : EditorState }.

Record LexicalEditor := MkEditor {
  _editorState : EditorState;
  _onError : Error -> Console -> Result Console;
  _commits : list Commit
}.

(** *** The update transaction ([editor.update(() => ...)]) *)

Record Pending := MkPending {
  pending : EditorState;
  updateTags : list string;
  dirty : bool
}.

Definition Update (A : Type) : Type := Pending -> Result (A * Pending).

Definition ret {A} (a : A) : Update A := fun p => Ok (a, p).
Definition ubind {A B} (m : Update A) (k : A -> Update B) : Update B :=
  fun p => match m p with
           | Ok (a, p') => k a p'
           | Throw e => Throw e
           end.
Definition raise {A} (e : Error) : Update A := fun _ => Throw e.

(** [$addUpdateTag(tag)] *)
Definition addUpdateTag (tag : string) : Update unit :=
  fun p => Ok (tt, MkPending (pending p) (updateTags p ++ [tag]) (dirty p)).

Fixpoint lookup_key (k : NodeKey) (ns : list DecoratorNode) : option DecoratorNode :=
  match ns with
  | [] => None
  | n :: rest => if String.eqb (getKey n) k then Some n else lookup_key k rest
  end.

(** [$getNodeByKey(key)]: the node, or [null]. *)
Definition getNodeByKey (k : NodeKey) : Update (option DecoratorNode) :=
  fun p => Ok (lookup_key k (nodes (pending p)), p).

Fixpoint set_mdast (k : NodeKey) (m : Mdast.Content) (ns : list DecoratorNode) : list DecoratorNode :=
  match ns with
  | [] => []
  | n :: rest =>
      if String.eqb (getKey n) k then MkDecorator k m :: rest
      else n :: set_mdast k m rest
  end.

(** [node.setMdastNode(mdastNode)]: writes the node, which marks it dirty. *)
Definition setMdastNode (n : DecoratorNode) (m : Mdast.Content) : Update unit :=
  fun p => Ok (tt, MkPending
                     (MkEditorState (set_mdast (getKey n) m (nodes (pending p)))
                                    (selection (pending p)))
                     (updateTags p) true).

Fixpoint next_sibling (k : NodeKey) (ns : list DecoratorNode) : option DecoratorNode :=
  match ns with
  | [] => None
  | n :: rest =>
      if String.eqb (getKey n) k then head rest else next_sibling k rest
  end.

(** [node.getIndexWithinParent()] *)
Fixpoint index_of (k : NodeKey) (ns : list DecoratorNode) : nat :=
  match ns with
  | [] => 0
  | n :: rest => if String.eqb (getKey n) k then 0 else S (index_of k rest)
  end.

(** [node.selectNext()].  Without a next sibling it is [parent.select()],
    which puts the selection at the end of the parent.  A next sibling
    that is neither an element nor a text node, as a decorator node is, is
    not entered: the parent is selected at the index of that sibling,
    [parent.select(index, index)]. *)
Definition selectNext (n : DecoratorNode) : Update unit :=
  fun p =>
    let ns := nodes (pending p) in
    let offset := match next_sibling (getKey n) ns with
                  | Some _ => S (index_of (getKey n) ns)
                  | None => length ns
                  end in
    Ok (tt, MkPending (MkEditorState ns (SelectionOnParent offset)) (updateTags p) true).

Fixpoint remove_key (k : NodeKey) (ns : list DecoratorNode) : list DecoratorNode :=
  match ns with
  | [] => []
  | n :: rest => if String.eqb (getKey n) k then rest else n :: remove_key k rest
  end.

(** [node.remove()].  The node leaves its parent; a collapsed selection on
    the parent at an offset behind the node moves one place to the front,
    so that it stays before the same child. *)
Definition remove (n : DecoratorNode) : Update unit :=
  fun p =>
    let ns := nodes (pending p) in
    let sel := match selection (pending p) with
               | SelectionOnParent offset =>
                   if Nat.ltb (index_of (getKey n) ns) offset
                   then SelectionOnParent (offset - 1)
                   else SelectionOnParent offset
               | SelectionNone => SelectionNone
               end in
    Ok (tt, MkPending (MkEditorState (remove_key (getKey n) ns) sel) (updateTags p) true).

(** [editor.update(fn)].  The closure runs on a pending copy of the state.
    When it returns and something is dirty, the pending state is committed
    together with its tags; when nothing is dirty the update is dropped.
    When it throws, the pending state is discarded and the error is handed
    to the editor's [onError]. *)
Definition update (editor : LexicalEditor) (fn : Update unit) (c : Console)
  : Result (LexicalEditor * Console) :=
  match fn (MkPending (_editorState editor) [] false) with
  | Ok (_, p) =>
      if dirty p
      then Ok (MkEditor (pending p) (_onError editor)
                        (_commits editor ++ [MkCommit (updateTags p) (pending p)]), c)
      else Ok (editor, c)
  | Throw e =>
      let! c' := _onError editor e c in
      Ok (editor, c')
  end.

(** An [onError] that throws its error on: [(error) => { throw error }]. *)
Definition onError_rethrow : Error -> Console -> Result Console :=
  fun e _ => Throw e.

(** The [onError] of an editor created without one: [console.error]. *)
Definition onError_default : Error -> Console -> Result Console :=
  fun e c => Ok (console_error e c).

End Lexical.

(* ===================================================================== *)
(** ** [NestedLexicalEditor.tsx]                                           *)
(* ===================================================================== *)

Module NestedLexicalEditor.
Import Lexical.

(** The value of [NestedEditorsContext].  [parentEditor] is a reference
    to the parent surface, whose state lives in the [World]; the context
    carries the mdast node and the lexical node that owns the editor. *)
Record NestedEditorsContextValue := MkContext {
  mdastNode : Mdast.Content;
  lexicalNode : DecoratorNode
}.

(** [React.useContext(NestedEditorsContext)]: the value of the nearest
    provider, innermost first, or the default of [createContext], which is
    [undefined].  A provider may itself carry [undefined]. *)
Definition useContext (providers : list (option NestedEditorsContextValue))
  : option NestedEditorsContextValue :=
  match providers with
  | [] => None
  | v :: _ => v
  end.

Definition useNestedEditorContext (providers : list (option NestedEditorsContextValue))
  : Result NestedEditorsContextValue :=
  match useContext providers with
  | None => Throw (MkError "Error" "useNestedEditor must be used within a NestedEditorsProvider")
  | Some context => Ok context
  end.

(** What the handlers act on: the parent surface, the console, and the
    calls made so far to [getUpdatedMdastNode] (argument pairs, oldest
    first). *)
Record World := MkWorld {
  parentEditor : LexicalEditor;
  console : Console;
  updaterCalls : list (Mdast.Content * list Mdast.Content)
}.

Definition parentEditor_update (fn : Update unit) (w : World) : Result World :=
  let! r := update (parentEditor w) fn (console w) in
  Ok (MkWorld (fst r) (snd r) (updaterCalls w)).

(** The closure returned by [useMdastNodeUpdater]. *)
Definition updateMdastNode (context : NestedEditorsContextValue) (node : Mdast.Content)
  : World -> Result World :=
  parentEditor_update
    (ubind (addUpdateTag "history-push") (fun _ =>
     ubind (getNodeByKey (getKey (lexicalNode context))) (fun currentNode =>
     match currentNode with
     | Some currentNode => setMdastNode currentNode node
     | None => ret tt
     end))).

Definition useMdastNodeUpdater (providers : list (option NestedEditorsContextValue))
  : Result (Mdast.Content -> World -> Result World) :=
  let! context := useNestedEditorContext providers in
  Ok (updateMdastNode context).

(** [node!.selectNext()] and [node!.remove()]: the [!] is erased by the
    compiler, so calling a method of [null] throws a [TypeError]. *)
Definition method_of {A} (prop : string) (node : option DecoratorNode)
    (call : DecoratorNode -> Update A) : Update A :=
  match node with
  | Some n => call n
  | None => raise (TypeError_null prop)
  end.

(** The closure returned by [useLexicalNodeRemove]. *)
Definition removeNode (context : NestedEditorsContextValue) : World -> Result World :=
  parentEditor_update
    (ubind (getNodeByKey (getKey (lexicalNode context))) (fun node =>
     ubind (method_of "selectNext" node selectNext) (fun _ =>
     method_of "remove" node remove))).

Definition useLexicalNodeRemove (providers : list (option NestedEditorsContextValue))
  : Result (World -> Result World) :=
  let! context := useNestedEditorContext providers in
  Ok (removeNode context).

(** [NestedEditorProps]; [block] defaults to [false]. *)
Record NestedEditorProps := MkProps {
  getContent : Mdast.Content -> list Mdast.Content;
  getUpdatedMdastNode : Mdast.Content -> list Mdast.Content -> Mdast.Content;
  block : bool
}.

(** The registry values read through [corePluginHooks.useEmitterValues].
    [importVisitors] is compared by reference in the dependency list of
    the import effect, so it is represented by its identity.  The import
    is given the registry, the root it appends to and the mdast root, and
    may throw; the export is given the root of the surface. *)
Record Realm := MkRealm {
  importVisitors : nat;
  importMdastTreeToLexical : nat -> RootChildren -> Mdast.Root -> Result RootChildren;
  exportLexicalTreeToMdast : RootChildren -> Mdast.Root
}.

(** Lines 149-156: the content handed to the import. *)
Definition theContent (block : bool) (content : list Mdast.Content) : list Mdast.Content :=
  if block
  then if Nat.eqb (length content) 0 then [Mdast.paragraph []] else content
  else [Mdast.paragraph content].

(** Lines 147-166: the body of the first effect, one update of the child
    surface.  The root is cleared and the import appends to it.  The child
    surface was created without [onError] (lines 139-142): when the import
    throws, the update is discarded, so that the root is as before the
    effect, and the error goes to [console.error]. *)
Definition importEffect_update (realm : Realm) (block : bool) (content : list Mdast.Content)
    (root : RootChildren) (c : Console) : RootChildren * Console :=
  match importMdastTreeToLexical realm (importVisitors realm) (clear root)
          (Mdast.MkRoot (theContent block content)) with
  | Ok imported => (imported, c)
  | Throw e => (root, console_error e c)
  end.

(** The child surface after the effect. *)
Definition importEffect (realm : Realm) (block : bool) (content : list Mdast.Content)
    (root : RootChildren) : RootChildren :=
  fst (importEffect_update realm block content root []).

(** Line 182: the content taken from the exported tree.  The cast to
    [Mdast.Paragraph] and the [!] are erased; [mdast.children[0]] is
    [undefined] when the exported root has no child. *)
Definition exportedContent (block : bool) (mdast : Mdast.Root) : Result (list Mdast.Content) :=
  if block then Ok (Mdast.root_children mdast)
  else match Mdast.root_children mdast with
       | first :: _ => Ok (Mdast.children first)
       | [] => Throw (TypeError_undefined "children")
       end.

(** [structuredClone] of an immutable tree value is that value; what the
    copy means for a mutable object graph is the subject of [ObjectGraph]
    below. *)
Definition structuredClone (n : Mdast.Content) : Mdast.Content := n.

(** Lines 174-186: the handler of [BLUR_COMMAND]. *)
Definition BLUR_COMMAND_handler (realm : Realm) (props : NestedEditorProps)
    (context : NestedEditorsContextValue) (editor : RootChildren) (w : World)
  : Result (World * bool) :=
  let mdast := exportLexicalTreeToMdast realm editor in
  let! content := exportedContent (block props) mdast in
  let arg := structuredClone (mdastNode context) in
  let updated := getUpdatedMdastNode props arg content in
  let w := MkWorld (parentEditor w) (console w) (updaterCalls w ++ [(arg, content)]) in
  let! w := updateMdastNode context updated w in
  Ok (w, true).

(** Lines 191-199: the handler of [KEY_BACKSPACE_COMMAND].  [innerText] is
    the text of [editor.getRootElement()], [None] when there is no root
    element ([editorElement?.innerText] is then [undefined]). *)
Definition newline : string := String (Ascii.ascii_of_nat 10) EmptyString.

Definition is_newline (innerText : option string) : bool :=
  match innerText with
  | Some t => String.eqb t newline
  | None => false
  end.

Definition KEY_BACKSPACE_COMMAND_handler (context : NestedEditorsContextValue)
    (innerText : option string) (w : World) : Result (World * bool) :=
  if is_newline innerText
  then let! w := removeNode context w in Ok (w, true)
  else Ok (w, false).

(** [editor.dispatchCommand(command, payload)] on the child surface: the
    listener runs inside an update of the child surface.  When it returns,
    so does the dispatch, with the listener's answer; when it throws, the
    error goes to the [onError] of the child surface and the command
    counts as not handled.  The two listeners of the adapter throw only
    while the parent surface is as they found it (before its update, or
    out of an update that was discarded), so the world is then as it was
    but for the console. *)
Definition dispatchCommand (onError : Error -> Console -> Result Console)
    (listener : World -> Result (World * bool)) (w : World) : Result (World * bool) :=
  match listener w with
  | Ok r => Ok r
  | Throw e =>
      let! c := onError e (console w) in
      Ok (MkWorld (parentEditor w) c (updaterCalls w), false)
  end.

(** *** The component across renders

    [editor] is created once ([React.useState]).  The import effect has
    the dependency list [[editor, block, importVisitors]]: it runs after
    the first render and after a render in which [block] or
    [importVisitors] differs from the previous render. *)
Record Instance := MkInstance {
  editor : RootChildren;
  effectDeps : bool * nat
}.

Definition same_deps (a b : bool * nat) : bool :=
  Bool.eqb (fst a) (fst b) && Nat.eqb (snd a) (snd b).

(** First render and its effects. *)
Definition mount (realm : Realm) (props : NestedEditorProps)
    (providers : list (option NestedEditorsContextValue)) : Result Instance :=
  let! context := useNestedEditorContext providers in
  let content := getContent props (mdastNode context) in
  let editor := createEditor in
  Ok (MkInstance (importEffect realm (block props) content editor)
                 (block props, importVisitors realm)).

(** A later render and its effects. *)
Definition rerender (realm : Realm) (props : NestedEditorProps)
    (providers : list (option NestedEditorsContextValue)) (inst : Instance) : Result Instance :=
  let! context := useNestedEditorContext providers in
  let content := getContent props (mdastNode context) in
  let deps := (block props, importVisitors realm) in
  if same_deps (effectDeps inst) deps
  then Ok inst
  else Ok (MkInstance (importEffect realm (block props) content (editor inst)) deps).

(** Import followed at once by the export of the blur handler. *)
Definition import_then_export (realm : Realm) (block : bool) (content : list Mdast.Content)
  : Result (list Mdast.Content) :=
  exportedContent block
    (exportLexicalTreeToMdast realm (importEffect realm block content createEditor)).

End NestedLexicalEditor.

(* ===================================================================== *)
(** ** The top-level wrapper ([standardConfig], [Wrapper])                *)
(* ===================================================================== *)

Module Wrapper.
Import Lexical.

(** The [initialConfig] of [LexicalComposer], without [theme] and
    [nodes].  [editorState] is the closure that fills [$getRoot()]. *)
Record InitialConfig := MkConfig {
  editorState : RootChildren -> Result RootChildren;
  namespace : string;
  onError : Error -> Console -> Result Console
}.

Section WithImport.
(** [importMarkdownToLexical(root, markdown)] comes from the package
    index; it may throw on a source it cannot import. *)
Variable importMarkdownToLexical : RootChildren -> string -> Result RootChildren.

Definition standardConfig (markdown : string) : InitialConfig :=
  {| editorState := fun root => importMarkdownToLexical root markdown;
     namespace := "MyEditor";
     onError := fun error c => Ok (console_error error c) |}.

(** [<LexicalComposer initialConfig=...>]: the root surface is created
    with the configuration's [onError], and the [editorState] closure
    runs inside an update of it: an error it throws goes to [onError]
    and the surface keeps its empty root. *)
Definition LexicalComposer (initialConfig : InitialConfig) (c : Console)
  : Result (RootChildren * Console) :=
  let editor := createEditor in
  match editorState initialConfig editor with
  | Ok root => Ok (root, c)
  | Throw e =>
      let! c' := onError initialConfig e c in
      Ok (editor, c')
  end.

Definition Wrapper (markdown : string) (c : Console) : Result (RootChildren * Console) :=
  LexicalComposer (standardConfig markdown) c.
End WithImport.

End Wrapper.

(* ===================================================================== *)
(** ** A structure-preserving visitor set                                  *)
(* ===================================================================== *)

Module Mirror.
Import Lexical NestedLexicalEditor.

(** Modelled from the spec: [importMdastTreeToLexical],
    [exportLexicalTreeToMdast] and the visitor registries are not among
    the embedded files.  The spec asks of them that content imported and
    exported without edits comes back equal; this is the smallest
    pipeline that does so: one lexical node per mdast node, appended
    under the root, and back. *)
Fixpoint importNode (c : Mdast.Content) : LexicalNode :=
  match c with
  | Mdast.MkContent t v cs => MkNode t v (map importNode cs)
  end.

Fixpoint exportNode (n : LexicalNode) : Mdast.Content :=
  match n with
  | MkNode t v cs => Mdast.MkContent t v (map exportNode cs)
  end.

Definition realm : Realm :=
  {| importVisitors := 0;
     importMdastTreeToLexical := fun _ root mdastRoot =>
       Ok (root ++ map importNode (Mdast.root_children mdastRoot));
     exportLexicalTreeToMdast := fun root => Mdast.MkRoot (map exportNode root) |}.

(** The same pipeline under another registry reference. *)
Definition realm' : Realm :=
  {| importVisitors := 1;
     importMdastTreeToLexical := importMdastTreeToLexical realm;
     exportLexicalTreeToMdast := exportLexicalTreeToMdast realm |}.

(** The same export with an import that finds no visitor for a node of
    type ['html'] and throws. *)
Definition no_visitor : Error := MkError "Error" "no MdastImportVisitor found for html".

Definition is_html (c : Mdast.Content) : bool := String.eqb (Mdast.type c) "html".

Definition strict_realm : Realm :=
  {| importVisitors := 0;
     importMdastTreeToLexical := fun visitors root mdastRoot =>
       if existsb is_html (Mdast.root_children mdastRoot)
       then Throw no_visitor
       else importMdastTreeToLexical realm visitors root mdastRoot;
     exportLexicalTreeToMdast := exportLexicalTreeToMdast realm |}.

End Mirror.

(* ===================================================================== *)
(** ** mdast nodes as mutable objects                                      *)
(* ===================================================================== *)

(** The caller-supplied [getUpdatedMdastNode] is free to assign to the
    object it is given.  To say what such assignments can reach, mdast
    nodes are here objects in a store, named by reference, whose
    [children] are references as well. *)
Module ObjectGraph.

Definition Ref := nat.

Record Obj := MkObj {
  obj_type : string;
  obj_value : option string;
  obj_children : list Ref
}.

(** The store: the object of reference [r] is at index [r].  Objects
    are created at the end and never leave. *)
Abbreviation Heap := (list Obj).

(** [h] holds the tree [t] at reference [a]. *)
Fixpoint represents (h : Heap) (t : Mdast.Content) (a : Ref) {struct t} : Prop :=
  match t with
  | Mdast.MkContent ty v cs =>
      exists o, h !! a = Some o /\ obj_type o = ty /\ obj_value o = v /\
        (fix all (cs : list Mdast.Content) (rs : list Ref) {struct cs} : Prop :=
           match cs, rs with
           | [], [] => True
           | c :: cs', r :: rs' => represents h c r /\ all cs' rs'
           | _, _ => False
           end) cs (obj_children o)
  end.

(** [x] is reached from [a] by following [children]. *)
Inductive reach (h : Heap) : Ref -> Ref -> Prop :=
| reach_here a : reach h a a
| reach_child a o b x :
    h !! a = Some o -> In b (obj_children o) -> reach h b x -> reach h a x.

(** Every object of [suf] has all its children at [n] or above. *)
Definition children_from (n : nat) (suf : Heap) : Prop :=
  Forall (fun o => Forall (fun r => n <= r) (obj_children o)) suf.

Fixpoint clone_all (clone1 : Ref -> Heap -> option (Ref * Heap))
    (rs : list Ref) (out : Heap) : option (list Ref * Heap) :=
  match rs with
  | [] => Some ([], out)
  | r :: rest =>
      match clone1 r out with
      | Some (r', out1) =>
          match clone_all clone1 rest out1 with
          | Some (rest', out2) => Some (r' :: rest', out2)
          | None => None
          end
      | None => None
      end
  end.

(** The copy of the object at [a] of [src], created in [out]: the
    children are copied first, then the object itself with the copies as
    its children. *)
Fixpoint clone (fuel : nat) (src : Heap) (a : Ref) (out : Heap) : option (Ref * Heap) :=
  match fuel with
  | 0 => None
  | S fuel =>
      match src !! a with
      | None => None
      | Some o =>
          match clone_all (clone fuel src) (obj_children o) out with
          | Some (cs, out') =>
              Some (length out', out' ++ [MkObj (obj_type o) (obj_value o) cs])
          | None => None
          end
      end
  end.

(** [structuredClone(value)].  A tree held in [h] is no deeper than [h]
    is long, so the recursion is given [S (length h)] steps; an object
    shared inside the argument is copied once per occurrence. *)
Definition structuredClone (h : Heap) (a : Ref) : option (Ref * Heap) :=
  clone (S (length h)) h a h.

(** [getUpdatedMdastNode(node, children)] with its effect on the store. *)
Definition Updater := Ref -> list Ref -> Heap -> Ref * Heap.

(** The updater assigns only to objects it reaches from its first
    argument, and may create objects. *)
Definition assigns_through_argument (u : Updater) : Prop :=
  forall a cs (h : Heap),
    length h <= length (snd (u a cs h)) /\
    forall x, x < length h -> ~ reach h a x -> snd (u a cs h) !! x = h !! x.

(** Line 183: [getUpdatedMdastNode(structuredClone(mdastNode), content)]. *)
Definition blur_export (getUpdatedMdastNode : Updater)
    (h : Heap) (mdastNode : Ref) (content : list Ref) : option (Ref * Heap) :=
  match structuredClone h mdastNode with
  | Some (copy, h1) => Some (getUpdatedMdastNode copy content h1)
  | None => None
  end.

(** The same line without the copy, for comparison. *)
Definition blur_export_uncopied (getUpdatedMdastNode : Updater)
    (h : Heap) (mdastNode : Ref) (content : list Ref) : Ref * Heap :=
  getUpdatedMdastNode mdastNode content h.

(** [(node, children) => ({ ...node, children })] *)
Definition spread_updater : Updater := fun a cs h =>
  match h !! a with
  | Some o => (length h, h ++ [MkObj (obj_type o) (obj_value o) cs])
  | None => (a, h)
  end.

(** [(node, children) => { if (node.children[0]) node.children[0].value = 'overwritten';
     node.children = children; return node }] *)
Definition overwrite_updater : Updater := fun a cs h =>
  match h !! a with
  | Some o =>
      let h1 := match obj_children o with
                | c :: _ =>
                    match h !! c with
                    | Some oc => <[c := MkObj (obj_type oc) (Some "overwritten") (obj_children oc)]> h
                    | None => h
                    end
                | [] => h
                end in
      match h1 !! a with
      | Some o1 => (a, <[a := MkObj (obj_type o1) (obj_value o1) cs]> h1)
      | None => (a, h1)
      end
  | None => (a, h)
  end.

(** A paragraph holding one text, as objects: the text at 0, the
    paragraph at 1. *)
Definition sample_heap : Heap :=
  [MkObj "text" (Some "hello") []; MkObj "paragraph" None [0]].

End ObjectGraph.

(* ===================================================================== *)
(** ** What is asked of the pipeline                                       *)
(* ===================================================================== *)

Module Pipeline.
Import Lexical NestedLexicalEditor.

(** Exporting what was imported from [children] into an empty root gives
    a root with these [children] again. *)
Definition round_trips_on (realm : Realm) (children : list Mdast.Content) : Prop :=
  exists imported,
    importMdastTreeToLexical realm (importVisitors realm) [] (Mdast.MkRoot children)
    = Ok imported /\
    exportLexicalTreeToMdast realm imported = Mdast.MkRoot children.

(** The paragraph visitor: an mdast paragraph without children becomes
    one paragraph node without children. *)
Definition imports_empty_paragraph (realm : Realm) : Prop :=
  importMdastTreeToLexical realm (importVisitors realm) []
    (Mdast.MkRoot [Mdast.paragraph []])
  = Ok [createParagraphNode].

End Pipeline.

(* ===================================================================== *)
(** ** Sample data                                                         *)
(* ===================================================================== *)

Module Sample.
Import Lexical NestedLexicalEditor.

(** A directive whose children are the content, as in the example of the
    component's documentation:
    [getContent={node => node.children}]
    [getUpdatedMdastNode={(node, children) => ({ ...node, children })}] *)
Definition callout (cs : list Mdast.Content) : Mdast.Content :=
  Mdast.MkContent "leafDirective" None cs.

Definition props (block : bool) : NestedEditorProps :=
  {| getContent := Mdast.children;
     getUpdatedMdastNode := fun node children =>
       Mdast.MkContent (Mdast.type node) (Mdast.value node) children;
     block := block |}.

Definition context (cs : list Mdast.Content) : NestedEditorsContextValue :=
  {| mdastNode := callout cs; lexicalNode := MkDecorator "7" (callout cs) |}.

(** [onError: (error) => console.error(error)] *)
Definition onError_log : Error -> Console -> Result Console :=
  fun error c => Ok (console_error error c).

(** A parent surface holding the nodes [ns]. *)
Definition parent (onError : Error -> Console -> Result Console) (ns : list DecoratorNode)
  : LexicalEditor :=
  MkEditor (MkEditorState ns SelectionNone) onError [].

Definition world (onError : Error -> Console -> Result Console) (ns : list DecoratorNode)
  : World :=
  MkWorld (parent onError ns) [] [].

Definition before : DecoratorNode := MkDecorator "6" (callout []).
Definition owner : DecoratorNode := MkDecorator "7" (callout []).
Definition after : DecoratorNode := MkDecorator "8" (callout []).

(** The child surface after "hello" was typed into its paragraph. *)
Definition typed_hello : RootChildren :=
  [MkNode "paragraph" None [MkNode "text" (Some "hello") []]].

(** An [importMarkdownToLexical] that rejects every source but the
    empty one. *)
Definition parse_error : Error := MkError "Error" "Unexpected character".
Definition strict_import (root : RootChildren) (markdown : string) : Result RootChildren :=
  if String.eqb markdown "" then Ok root else Throw parse_error.

End Sample.

(* ===================================================================== *)
(** ** Sequences of renders                                                *)
(* ===================================================================== *)

Module Session.
Import Lexical NestedLexicalEditor.

(** The component rendered again and again under the same props and
    registry; each render sees the provider stack of its turn. *)
Fixpoint rerenders (realm : Realm) (props : NestedEditorProps)
    (renders : list (list (option NestedEditorsContextValue))) (inst : Instance)
  : Result Instance :=
  match renders with
  | [] => Ok inst
  | providers :: later =>
      let! inst' := rerender realm props providers inst in
      rerenders realm props later inst'
  end.

End Session.

(* ===================================================================== *)
(** * Properties                                                           *)
(* ===================================================================== *)

Import Lexical NestedLexicalEditor.

(** ** The context hook *)

(** C8: [useNestedEditorContext] throws at once when there is no provider
    above, or when the nearest provider carries [undefined]; under a
    provider with a value it returns that value and does not throw. *)
Theorem useNestedEditorContext_requires_provider :
  let err := MkError "Error" "useNestedEditor must be used within a NestedEditorsProvider" in
  useNestedEditorContext [] = Throw err /\
  (forall outer, useNestedEditorContext (None :: outer) = Throw err) /\
  (forall value outer, useNestedEditorContext (Some value :: outer) = Ok value).
Proof.
  cbv zeta. repeat split.
Qed.

(** The hooks built on it fail in the same way. *)
Lemma hooks_require_provider :
  throws (useMdastNodeUpdater []) /\ throws (useLexicalNodeRemove []) /\
  forall realm props, throws (mount realm props []).
Proof.
  repeat split.
Qed.

(** ** The import effect *)

Lemma theContent_inline content :
  theContent false content = [Mdast.paragraph content].
Proof. reflexivity. Qed.

Lemma theContent_block_nonempty content :
  content <> [] -> theContent true content = content.
Proof.
  destruct content as [|c cs]; [congruence | reflexivity].
Qed.

Lemma theContent_block_empty :
  theContent true [] = [Mdast.paragraph []].
Proof. reflexivity. Qed.

Lemma importEffect_update_returns realm block content root c imported :
  importMdastTreeToLexical realm (importVisitors realm) []
    (Mdast.MkRoot (theContent block content)) = Ok imported ->
  importEffect_update realm block content root c = (imported, c).
Proof.
  intros H. unfold importEffect_update, clear. rewrite H. reflexivity.
Qed.

Lemma importEffect_update_throws realm block content root c e :
  importMdastTreeToLexical realm (importVisitors realm) []
    (Mdast.MkRoot (theContent block content)) = Throw e ->
  importEffect_update realm block content root c = (root, c ++ [e]).
Proof.
  intros H. unfold importEffect_update, clear. rewrite H. reflexivity.
Qed.

Lemma importEffect_returns realm block content root imported :
  importMdastTreeToLexical realm (importVisitors realm) []
    (Mdast.MkRoot (theContent block content)) = Ok imported ->
  importEffect realm block content root = imported.
Proof.
  intros H. unfold importEffect.
  rewrite (importEffect_update_returns _ _ _ _ _ _ H). reflexivity.
Qed.

Lemma importEffect_throws realm block content root e :
  importMdastTreeToLexical realm (importVisitors realm) []
    (Mdast.MkRoot (theContent block content)) = Throw e ->
  importEffect realm block content root = root.
Proof.
  intros H. unfold importEffect.
  rewrite (importEffect_update_throws _ _ _ _ _ _ H). reflexivity.
Qed.

(** C7: in block mode an empty content array is replaced by exactly one
    empty paragraph before the import, whatever the child surface held;
    with a paragraph visitor that turns an empty mdast paragraph into one
    empty paragraph node, the child surface then holds exactly that one
    node. *)
Theorem empty_block_imports_one_empty_paragraph :
  forall realm root,
    Pipeline.imports_empty_paragraph realm ->
    theContent true [] = [Mdast.MkContent "paragraph" None []] /\
    importEffect realm true [] root = [MkNode "paragraph" None []].
Proof.
  intros realm root Hpar. split; [reflexivity|].
  apply importEffect_returns. exact Hpar.
Qed.

Lemma empty_block_imports_one_empty_paragraph_witness :
  Pipeline.imports_empty_paragraph Mirror.realm /\
  theContent true [] = [Mdast.MkContent "paragraph" None []] /\
  importEffect Mirror.realm true [] Sample.typed_hello = [MkNode "paragraph" None []].
Proof.
  split; [reflexivity|].
  apply (empty_block_imports_one_empty_paragraph Mirror.realm Sample.typed_hello).
  reflexivity.
Defined.

(** ** Import followed by export *)

Lemma Mirror_exportNode_importNode :
  forall c, Mirror.exportNode (Mirror.importNode c) = c.
Proof.
  fix IH 1. intros [t v cs]. simpl. f_equal.
  induction cs as [|c cs IHcs]; simpl.
  - reflexivity.
  - rewrite IH, IHcs. reflexivity.
Qed.

Lemma Mirror_export_import cs :
  map Mirror.exportNode (map Mirror.importNode cs) = cs.
Proof.
  induction cs as [|c cs IHcs]; simpl.
  - reflexivity.
  - rewrite Mirror_exportNode_importNode, IHcs. reflexivity.
Qed.

Lemma Mirror_round_trips : forall cs, Pipeline.round_trips_on Mirror.realm cs.
Proof.
  intros cs. unfold Pipeline.round_trips_on. simpl.
  eexists. split; [reflexivity|]. rewrite Mirror_export_import. reflexivity.
Qed.

Lemma import_then_export_inline realm content :
  Pipeline.round_trips_on realm [Mdast.paragraph content] ->
  import_then_export realm false content = Ok content.
Proof.
  intros (imported & Himp & Hexp). unfold import_then_export.
  rewrite (importEffect_returns realm false content createEditor imported Himp).
  rewrite Hexp. reflexivity.
Qed.

Lemma import_then_export_block realm content :
  Pipeline.round_trips_on realm (theContent true content) ->
  import_then_export realm true content = Ok (theContent true content).
Proof.
  intros (imported & Himp & Hexp). unfold import_then_export.
  rewrite (importEffect_returns realm true content createEditor imported Himp).
  rewrite Hexp. reflexivity.
Qed.

Lemma Mirror_importEffect block content previous :
  importEffect Mirror.realm block content previous
  = map Mirror.importNode (theContent block content).
Proof. reflexivity. Qed.

(** C1, as amended: the child surface imported from a content array,
    whatever the surface held before, exports that array again through the
    blur path, in inline mode always and in block mode for every non-empty
    array.  In inline mode the surface holds the single synthetic
    paragraph around the imported content, and the export strips it; in
    block mode it holds the imported content as it is.  The empty array in
    block mode is imported as one empty paragraph and comes back as one
    empty paragraph.  The pipeline is the structure-preserving one. *)
Theorem import_then_export_round_trip :
  forall block content previous,
    let surface := importEffect Mirror.realm block content previous in
    let exported := exportedContent block (exportLexicalTreeToMdast Mirror.realm surface) in
    (block = false ->
       surface = [MkNode "paragraph" None (map Mirror.importNode content)] /\
       exported = Ok content) /\
    (block = true -> content <> [] ->
       surface = map Mirror.importNode content /\
       exported = Ok content) /\
    (block = true -> content = [] ->
       surface = [MkNode "paragraph" None []] /\
       exported = Ok [Mdast.paragraph []]).
Proof.
  intros block content previous surface exported.
  subst exported surface. rewrite Mirror_importEffect.
  split; [|split].
  - intros ->. split; [reflexivity|].
    simpl. rewrite Mirror_export_import. reflexivity.
  - intros -> Hne. rewrite theContent_block_nonempty by exact Hne.
    split; [reflexivity|]. simpl. rewrite Mirror_export_import. reflexivity.
  - intros -> ->. split; reflexivity.
Qed.

Lemma import_then_export_round_trip_witness :
  let surface := importEffect Mirror.realm false [Mdast.text "hello"]
                   [MkNode "paragraph" None [MkNode "text" (Some "old") []]] in
  false = false /\
  surface = [MkNode "paragraph" None [MkNode "text" (Some "hello") []]] /\
  exportedContent false (exportLexicalTreeToMdast Mirror.realm surface)
    = Ok [Mdast.text "hello"].
Proof.
  cbv zeta. split; [reflexivity|].
  apply (import_then_export_round_trip false [Mdast.text "hello"]
           [MkNode "paragraph" None [MkNode "text" (Some "old") []]]).
  reflexivity.
Defined.

(** C1, as stated, fails in block mode on the empty array: the pipeline
    gives back what it imported, and what was imported is the substituted
    paragraph. *)
Lemma round_trip_fails_on_empty_block :
  Pipeline.round_trips_on Mirror.realm (theContent true []) /\
  import_then_export Mirror.realm true [] = Ok [Mdast.paragraph []] /\
  import_then_export Mirror.realm true [] <> Ok [].
Proof.
  split; [apply Mirror_round_trips|]. split; [reflexivity|]. discriminate.
Qed.

(** ** When the import effect runs *)

Lemma same_deps_spec a b :
  same_deps a b = true <-> a = b.
Proof.
  destruct a as [b1 n1], b as [b2 n2]. unfold same_deps. simpl.
  rewrite andb_true_iff, Bool.eqb_true_iff, Nat.eqb_eq.
  split; [intros [-> ->]; reflexivity | intros [= -> ->]; split; reflexivity].
Qed.

(** C3, as amended: the effect runs after the first render and after every
    render in which the block flag or the import visitors differ from the
    previous render; a render in which only the content differs leaves the
    child surface as it is.  When it runs, the import is given an emptied
    root and the raw content list in block mode, unless that is empty, in
    which case it is one empty paragraph, and the content wrapped in one
    synthetic paragraph in inline mode.  When the import returns, the
    child surface holds what it produced and nothing is reported; when it
    throws, the child surface is as before the effect and the error is
    written to the console. *)
Theorem import_effect_follows_its_dependencies :
  forall realm props context outer,
    let providers := Some context :: outer in
    let content := getContent props (mdastNode context) in
    let deps := (block props, importVisitors realm) in
    let outcome :=
      importMdastTreeToLexical realm (importVisitors realm) []
        (Mdast.MkRoot (if block props
                       then match content with [] => [Mdast.paragraph []] | _ => content end
                       else [Mdast.paragraph content])) in
    (forall imported,
        outcome = Ok imported ->
        mount realm props providers = Ok (MkInstance imported deps) /\
        (forall inst,
            effectDeps inst <> deps ->
            rerender realm props providers inst = Ok (MkInstance imported deps)) /\
        (forall root c,
            importEffect_update realm (block props) content root c = (imported, c))) /\
    (forall e,
        outcome = Throw e ->
        mount realm props providers = Ok (MkInstance [] deps) /\
        (forall inst,
            effectDeps inst <> deps ->
            rerender realm props providers inst = Ok (MkInstance (editor inst) deps)) /\
        (forall root c,
            importEffect_update realm (block props) content root c = (root, c ++ [e]))) /\
    (forall inst,
        effectDeps inst = deps ->
        rerender realm props providers inst = Ok inst).
Proof.
  intros realm props context outer providers content deps outcome.
  assert (Hout : outcome
                 = importMdastTreeToLexical realm (importVisitors realm) []
                     (Mdast.MkRoot (theContent (block props) content))).
  { unfold outcome, theContent. destruct (block props); [|reflexivity].
    destruct content; reflexivity. }
  assert (Hre : forall inst,
             effectDeps inst <> deps ->
             rerender realm props providers inst
             = Ok (MkInstance (importEffect realm (block props) content (editor inst)) deps)).
  { intros inst Hne. unfold rerender, providers. simpl. fold content. fold deps.
    destruct (same_deps (effectDeps inst) deps) eqn:E; [|reflexivity].
    apply same_deps_spec in E. contradiction. }
  split; [|split].
  - intros imported Hok. rewrite Hout in Hok. split; [|split].
    + unfold mount, providers. simpl. fold content.
      rewrite (importEffect_returns _ _ _ _ _ Hok). reflexivity.
    + intros inst Hne. rewrite (Hre inst Hne).
      rewrite (importEffect_returns _ _ _ _ _ Hok). reflexivity.
    + intros root c. apply importEffect_update_returns. exact Hok.
  - intros e Hthrow. rewrite Hout in Hthrow. split; [|split].
    + unfold mount, providers. simpl. fold content.
      rewrite (importEffect_throws _ _ _ _ _ Hthrow). reflexivity.
    + intros inst Hne. rewrite (Hre inst Hne).
      rewrite (importEffect_throws _ _ _ _ _ Hthrow). reflexivity.
    + intros root c. apply importEffect_update_throws. exact Hthrow.
  - intros inst Heq. unfold rerender, providers. simpl. fold deps.
    apply same_deps_spec in Heq. rewrite Heq. reflexivity.
Qed.

Lemma import_effect_follows_its_dependencies_witness :
  let inst := MkInstance Sample.typed_hello (false, 0) in
  let html := Mdast.MkContent "html" (Some "<br>") [] in
  effectDeps inst <> (true, 1) /\
  rerender Mirror.realm' (Sample.props true) [Some (Sample.context [])] inst
    = Ok (MkInstance [MkNode "paragraph" None []] (true, 1)) /\
  effectDeps inst <> (true, 0) /\
  rerender Mirror.strict_realm (Sample.props true) [Some (Sample.context [html])] inst
    = Ok (MkInstance Sample.typed_hello (true, 0)) /\
  importEffect_update Mirror.strict_realm true [html] Sample.typed_hello []
    = (Sample.typed_hello, [Mirror.no_visitor]).
Proof.
  cbv zeta.
  destruct (import_effect_follows_its_dependencies
              Mirror.realm' (Sample.props true) (Sample.context []) [])
    as [Hok _].
  destruct (Hok [MkNode "paragraph" None []] eq_refl) as (_ & Hre & _).
  destruct (import_effect_follows_its_dependencies
              Mirror.strict_realm (Sample.props true)
              (Sample.context [Mdast.MkContent "html" (Some "<br>") []]) [])
    as (_ & Hthrow & _).
  destruct (Hthrow Mirror.no_visitor eq_refl) as (_ & Hre' & Hlog).
  split; [discriminate|]. split; [apply Hre; discriminate|].
  split; [discriminate|]. split; [apply (Hre' (MkInstance Sample.typed_hello (false, 0))); discriminate|].
  apply Hlog.
Defined.

(** C3, as stated, fails on a change of the content alone: after a render
    with new content and the same block flag and visitors the child
    surface still holds the first import; and in block mode the empty list
    is not imported as it is. *)
Lemma content_change_alone_does_not_reimport :
  let realm := Mirror.realm in
  let props := Sample.props false in
  exists inst inst',
    mount realm props [Some (Sample.context [Mdast.text "a"])] = Ok inst /\
    rerender realm props [Some (Sample.context [Mdast.text "b"])] inst = Ok inst' /\
    editor inst' = editor inst /\
    editor inst' <> importEffect realm false [Mdast.text "b"] (editor inst).
Proof.
  cbv zeta. eexists. eexists.
  split; [reflexivity|]. split; [reflexivity|]. split; [reflexivity|].
  discriminate.
Qed.

(** ** The parent surface: lookups and updates *)

Lemma lookup_key_Some k ns n :
  lookup_key k ns = Some n ->
  exists l1 l2, ns = l1 ++ n :: l2 /\ getKey n = k /\
                Forall (fun x => getKey x <> k) l1.
Proof.
  induction ns as [|m ns IH]; simpl; [discriminate|].
  destruct (String.eqb (getKey m) k) eqn:E.
  - intros [= ->]. apply String.eqb_eq in E.
    exists [], ns. repeat split; [exact E | constructor].
  - intros H. destruct (IH H) as (l1 & l2 & -> & Hk & Hl1).
    exists (m :: l1), l2. repeat split; [exact Hk|].
    constructor; [|exact Hl1]. apply String.eqb_neq. exact E.
Qed.

Lemma lookup_key_app k l1 n l2 :
  Forall (fun x => getKey x <> k) l1 -> getKey n = k ->
  lookup_key k (l1 ++ n :: l2) = Some n.
Proof.
  intros Hl1 Hn. induction Hl1 as [|m l1 Hm _ IH]; simpl.
  - apply String.eqb_eq in Hn. rewrite Hn. reflexivity.
  - apply String.eqb_neq in Hm. rewrite Hm. exact IH.
Qed.

Lemma set_mdast_app k m l1 n l2 :
  Forall (fun x => getKey x <> k) l1 -> getKey n = k ->
  set_mdast k m (l1 ++ n :: l2) = l1 ++ MkDecorator k m :: l2.
Proof.
  intros Hl1 Hn. induction Hl1 as [|x l1 Hx _ IH]; simpl.
  - apply String.eqb_eq in Hn. rewrite Hn. reflexivity.
  - apply String.eqb_neq in Hx. rewrite Hx, IH. reflexivity.
Qed.

Lemma remove_key_app k l1 n l2 :
  Forall (fun x => getKey x <> k) l1 -> getKey n = k ->
  remove_key k (l1 ++ n :: l2) = l1 ++ l2.
Proof.
  intros Hl1 Hn. induction Hl1 as [|x l1 Hx _ IH]; simpl.
  - apply String.eqb_eq in Hn. rewrite Hn. reflexivity.
  - apply String.eqb_neq in Hx. rewrite Hx, IH. reflexivity.
Qed.

Lemma next_sibling_app k l1 n l2 :
  Forall (fun x => getKey x <> k) l1 -> getKey n = k ->
  next_sibling k (l1 ++ n :: l2) = head l2.
Proof.
  intros Hl1 Hn. induction Hl1 as [|x l1 Hx _ IH]; simpl.
  - apply String.eqb_eq in Hn. rewrite Hn. reflexivity.
  - apply String.eqb_neq in Hx. rewrite Hx, IH. reflexivity.
Qed.

Lemma index_of_app k l1 n l2 :
  Forall (fun x => getKey x <> k) l1 -> getKey n = k ->
  index_of k (l1 ++ n :: l2) = length l1.
Proof.
  intros Hl1 Hn. induction Hl1 as [|x l1 Hx _ IH]; simpl.
  - apply String.eqb_eq in Hn. rewrite Hn. reflexivity.
  - apply String.eqb_neq in Hx. rewrite Hx, IH. reflexivity.
Qed.

Lemma lookup_key_absent k ns :
  lookup_key k ns = None <-> Forall (fun x => getKey x <> k) ns.
Proof.
  induction ns as [|m ns IH]; simpl.
  - split; [constructor | reflexivity].
  - destruct (String.eqb (getKey m) k) eqn:E.
    + split; [discriminate|]. intros H. inversion H as [|? ? Hm _]; subst.
      apply String.eqb_eq in E. contradiction.
    + rewrite IH. apply String.eqb_neq in E. split.
      * intros H. constructor; assumption.
      * intros H. inversion H; assumption.
Qed.

(** The update of [useMdastNodeUpdater] when the key no longer resolves:
    nothing is written, nothing is committed, nothing is reported. *)
Lemma updateMdastNode_stale context node w :
  lookup_key (getKey (lexicalNode context)) (nodes (_editorState (parentEditor w))) = None ->
  updateMdastNode context node w = Ok w.
Proof.
  intros Hnone. unfold updateMdastNode, parentEditor_update, update, ubind,
    addUpdateTag, getNodeByKey. simpl. rewrite Hnone. simpl.
  destruct w. reflexivity.
Qed.

(** The same update when the key resolves: one commit, tagged
    ['history-push'], in which the owning node carries the new mdast node. *)
Lemma updateMdastNode_present context node w owner :
  lookup_key (getKey (lexicalNode context)) (nodes (_editorState (parentEditor w))) = Some owner ->
  let st := MkEditorState
              (set_mdast (getKey (lexicalNode context)) node
                         (nodes (_editorState (parentEditor w))))
              (selection (_editorState (parentEditor w))) in
  updateMdastNode context node w
  = Ok (MkWorld (MkEditor st (_onError (parentEditor w))
                          (_commits (parentEditor w) ++ [MkCommit ["history-push"] st]))
                (console w) (updaterCalls w)).
Proof.
  intros Hsome. unfold updateMdastNode, parentEditor_update, update, ubind,
    addUpdateTag, getNodeByKey, setMdastNode. simpl. rewrite Hsome. simpl.
  destruct (lookup_key_Some _ _ _ Hsome) as (_ & _ & _ & -> & _). reflexivity.
Qed.

(** The removal of [useLexicalNodeRemove] when the key no longer resolves:
    [node] is [null], [node!.selectNext()] throws inside the update, and
    the error goes to the [onError] of the parent surface. *)
Lemma removeNode_stale context w :
  lookup_key (getKey (lexicalNode context)) (nodes (_editorState (parentEditor w))) = None ->
  removeNode context w =
  let! c := _onError (parentEditor w) (TypeError_null "selectNext") (console w) in
  Ok (MkWorld (parentEditor w) c (updaterCalls w)).
Proof.
  intros Hnone. unfold removeNode, parentEditor_update, update, ubind, getNodeByKey.
  simpl. rewrite Hnone. simpl.
  destruct (_onError (parentEditor w) _ (console w)); reflexivity.
Qed.

(** The removal when the key resolves. *)
Lemma removeNode_present context w l1 owner l2 :
  nodes (_editorState (parentEditor w)) = l1 ++ owner :: l2 ->
  getKey owner = getKey (lexicalNode context) ->
  Forall (fun x => getKey x <> getKey (lexicalNode context)) l1 ->
  let st := MkEditorState (l1 ++ l2) (SelectionOnParent (length l1)) in
  removeNode context w
  = Ok (MkWorld (MkEditor st (_onError (parentEditor w))
                          (_commits (parentEditor w) ++ [MkCommit [] st]))
                (console w) (updaterCalls w)).
Proof.
  intros Hnodes Hkey Hl1 st.
  unfold removeNode, parentEditor_update, update, ubind, getNodeByKey,
    method_of, selectNext, remove. simpl.
  rewrite Hnodes, (lookup_key_app _ l1 owner l2 Hl1 Hkey). simpl.
  rewrite !Hnodes, !Hkey, (next_sibling_app _ l1 owner l2 Hl1 Hkey),
    (remove_key_app _ l1 owner l2 Hl1 Hkey), !(index_of_app _ l1 owner l2 Hl1 Hkey).
  subst st. destruct l2 as [|next l2]; simpl.
  - rewrite length_app. simpl.
    replace (length l1 <? length l1 + 1)%nat with true by (symmetry; apply Nat.ltb_lt; lia).
    replace (length l1 + 1 - 1) with (length l1) by lia. reflexivity.
  - replace (length l1 <? S (length l1))%nat with true by (symmetry; apply Nat.ltb_lt; lia).
    rewrite Nat.sub_0_r. reflexivity.
Qed.

(** ** The blur handler *)

Lemma exportedContent_block mdast :
  exportedContent true mdast = Ok (Mdast.root_children mdast).
Proof. reflexivity. Qed.

Lemma exportedContent_inline mdast first rest :
  Mdast.root_children mdast = first :: rest ->
  exportedContent false mdast = Ok (Mdast.children first).
Proof. intros H. unfold exportedContent. rewrite H. reflexivity. Qed.

(** With the structure-preserving visitors, text typed into the paragraph
    of an inline child surface is the exported content. *)
Lemma typed_text_is_exported text :
  exportedContent false
    (exportLexicalTreeToMdast Mirror.realm
       [MkNode "paragraph" None [MkNode "text" (Some text) []]])
  = Ok [Mdast.text text].
Proof. reflexivity. Qed.

Lemma Mirror_has_text text :
  forall n, Mdast.has_text text (Mirror.exportNode n) = node_has_text text n.
Proof.
  fix IH 1. intros [t v cs]. simpl. f_equal.
  induction cs as [|c cs IHcs]; simpl.
  - reflexivity.
  - rewrite IH, IHcs. reflexivity.
Qed.

Lemma Mirror_has_text_list text ns :
  existsb (Mdast.has_text text) (map Mirror.exportNode ns) = existsb (node_has_text text) ns.
Proof.
  induction ns as [|n ns IH]; simpl; [reflexivity|].
  rewrite Mirror_has_text, IH. reflexivity.
Qed.

Lemma Mirror_exportNode_children n :
  Mdast.children (Mirror.exportNode n) = map Mirror.exportNode (node_children n).
Proof. destruct n. reflexivity. Qed.

(** C2, as amended.  First part, for any export: when the exported tree
    yields content (block mode, or a first exported node), the blur
    handler returns [true] after exactly one more call of
    [getUpdatedMdastNode], made with the mdast node of the context and
    with the content taken from the exported tree: all its top-level nodes
    in block mode, the children of its first node in inline mode; it
    reports nothing; and, the owning node being in the parent surface, it
    commits exactly one update of the parent, tagged ['history-push'], in
    which the owning node carries [getUpdatedMdastNode(mdastNode, content)].
    Second part, with the structure-preserving export: text that the child
    surface holds anywhere (block mode) or inside its first top-level node
    (inline mode) is held by the content the updater is called with. *)
Theorem blur_invokes_updater_once :
  (forall realm props context editor w,
      let exported := Mdast.root_children (exportLexicalTreeToMdast realm editor) in
      let content := if block props then exported
                     else match exported with
                          | first :: _ => Mdast.children first
                          | [] => []
                          end in
      block props = true \/ exported <> [] ->
      exists w',
        BLUR_COMMAND_handler realm props context editor w = Ok (w', true) /\
        updaterCalls w' = updaterCalls w ++ [(mdastNode context, content)] /\
        console w' = console w /\
        forall l1 owner l2,
          nodes (_editorState (parentEditor w)) = l1 ++ owner :: l2 ->
          getKey owner = getKey (lexicalNode context) ->
          Forall (fun x => getKey x <> getKey (lexicalNode context)) l1 ->
          let updated := getUpdatedMdastNode props (mdastNode context) content in
          let st := MkEditorState (l1 ++ MkDecorator (getKey owner) updated :: l2)
                                  (selection (_editorState (parentEditor w))) in
          _editorState (parentEditor w') = st /\
          _commits (parentEditor w') =
            _commits (parentEditor w) ++ [MkCommit ["history-push"] st]) /\
  (forall props context editor w text,
      (if block props then existsb (node_has_text text) editor
       else match editor with
            | first :: _ => existsb (node_has_text text) (node_children first)
            | [] => false
            end) = true ->
      exists w' content,
        BLUR_COMMAND_handler Mirror.realm props context editor w = Ok (w', true) /\
        updaterCalls w' = updaterCalls w ++ [(mdastNode context, content)] /\
        existsb (Mdast.has_text text) content = true).
Proof.
  assert (Hrun : forall realm props context editor w content,
             exportedContent (block props) (exportLexicalTreeToMdast realm editor)
             = Ok content ->
             exists w',
               BLUR_COMMAND_handler realm props context editor w = Ok (w', true) /\
               updaterCalls w' = updaterCalls w ++ [(mdastNode context, content)] /\
               console w' = console w /\
               forall l1 owner l2,
                 nodes (_editorState (parentEditor w)) = l1 ++ owner :: l2 ->
                 getKey owner = getKey (lexicalNode context) ->
                 Forall (fun x => getKey x <> getKey (lexicalNode context)) l1 ->
                 let updated := getUpdatedMdastNode props (mdastNode context) content in
                 let st := MkEditorState (l1 ++ MkDecorator (getKey owner) updated :: l2)
                                         (selection (_editorState (parentEditor w))) in
                 _editorState (parentEditor w') = st /\
                 _commits (parentEditor w') =
                   _commits (parentEditor w) ++ [MkCommit ["history-push"] st]).
  { intros realm props context editor w content Hexp.
    unfold BLUR_COMMAND_handler. rewrite Hexp. cbn [Js.bind].
    unfold NestedLexicalEditor.structuredClone.
    set (w1 := MkWorld (parentEditor w) (console w)
                       (updaterCalls w ++ [(mdastNode context, content)])).
    set (updated := getUpdatedMdastNode props (mdastNode context) content).
    destruct (lookup_key (getKey (lexicalNode context))
                (nodes (_editorState (parentEditor w)))) as [owner|] eqn:Hlk.
    - rewrite (updateMdastNode_present context updated w1 owner Hlk). cbn [Js.bind].
      eexists. split; [reflexivity|]. cbn. split; [reflexivity|]. split; [reflexivity|].
      intros l1 owner' l2 Hnodes Hkey Hl1.
      rewrite Hnodes, Hkey, (set_mdast_app _ updated l1 owner' l2 Hl1 Hkey).
      split; reflexivity.
    - rewrite (updateMdastNode_stale context updated w1 Hlk). cbn [Js.bind].
      eexists. split; [reflexivity|]. cbn. split; [reflexivity|]. split; [reflexivity|].
      intros l1 owner' l2 Hnodes Hkey Hl1. exfalso.
      rewrite Hnodes, (lookup_key_app _ l1 owner' l2 Hl1 Hkey) in Hlk. discriminate. }
  split.
  - intros realm props context editor w exported content Hcase.
    apply Hrun. unfold exportedContent. fold exported. subst content.
    destruct (block props); [reflexivity|].
    destruct Hcase as [?|Hne]; [discriminate|].
    destruct exported; [congruence | reflexivity].
  - intros props context editor w text Htext.
    destruct (block props) eqn:Hb.
    + destruct (Hrun Mirror.realm props context editor w (map Mirror.exportNode editor))
        as (w' & Hblur & Hcalls & _); [rewrite Hb; reflexivity|].
      exists w', (map Mirror.exportNode editor).
      split; [exact Hblur|]. split; [exact Hcalls|].
      rewrite Mirror_has_text_list. exact Htext.
    + destruct editor as [|first rest]; [discriminate|].
      destruct (Hrun Mirror.realm props context (first :: rest) w
                  (map Mirror.exportNode (node_children first)))
        as (w' & Hblur & Hcalls & _).
      { rewrite Hb. simpl. rewrite Mirror_exportNode_children. reflexivity. }
      exists w', (map Mirror.exportNode (node_children first)).
      split; [exact Hblur|]. split; [exact Hcalls|].
      rewrite Mirror_has_text_list. exact Htext.
Qed.

Lemma blur_invokes_updater_once_witness :
  let w := Sample.world Sample.onError_log [Sample.before; Sample.owner; Sample.after] in
  Mdast.root_children (exportLexicalTreeToMdast Mirror.realm Sample.typed_hello) <> [] /\
  exists w',
    BLUR_COMMAND_handler Mirror.realm (Sample.props false) (Sample.context [])
      Sample.typed_hello w = Ok (w', true) /\
    updaterCalls w' = [(Sample.callout [], [Mdast.text "hello"])] /\
    nodes (_editorState (parentEditor w'))
      = [Sample.before; MkDecorator "7" (Sample.callout [Mdast.text "hello"]); Sample.after] /\
    map commit_tags (_commits (parentEditor w')) = [["history-push"]].
Proof.
  cbv zeta. split; [discriminate|].
  destruct blur_invokes_updater_once as [Hany _].
  destruct (Hany Mirror.realm (Sample.props false) (Sample.context [])
              Sample.typed_hello
              (Sample.world Sample.onError_log [Sample.before; Sample.owner; Sample.after]))
    as (w' & Hrun & Hcalls & _ & Hparent).
  { right. discriminate. }
  exists w'. split; [exact Hrun|]. split; [exact Hcalls|].
  destruct (Hparent [Sample.before] Sample.owner [Sample.after] eq_refl eq_refl)
    as [Hst Hcommits].
  - constructor; [discriminate | constructor].
  - rewrite Hst, Hcommits. split; reflexivity.
Defined.

(** C2, as stated, fails in inline mode for text typed behind the first
    top-level node: the child surface holds "more" in its second
    paragraph, and the updater is called with the children of the first
    paragraph only. *)
Lemma blur_drops_text_behind_the_first_node :
  let w := Sample.world Sample.onError_log [Sample.before; Sample.owner; Sample.after] in
  let editor := [MkNode "paragraph" None [MkNode "text" (Some "hello") []];
                 MkNode "paragraph" None [MkNode "text" (Some "more") []]] in
  existsb (node_has_text "more") editor = true /\
  exists w',
    BLUR_COMMAND_handler Mirror.realm (Sample.props false) (Sample.context []) editor w
      = Ok (w', true) /\
    updaterCalls w' = [(Sample.callout [], [Mdast.text "hello"])] /\
    existsb (Mdast.has_text "more") [Mdast.text "hello"] = false.
Proof.
  cbv zeta. split; [reflexivity|]. eexists. split; [reflexivity|].
  split; reflexivity.
Qed.

(** C5: when the owning node has been removed from the parent surface
    before blur fires, the update of [useMdastNodeUpdater] finds no node
    under the key, does nothing and does not throw.  The blur handler then
    returns [true] and leaves the parent surface and the console as they
    were, in block mode always and in inline mode whenever the exported
    tree has a first node; and run as a command of the child surface the
    adapter creates, it does not throw in any such state and leaves the
    parent surface as it was. *)
Theorem blur_after_removal_is_a_no_op :
  forall realm props context editor w,
    lookup_key (getKey (lexicalNode context))
               (nodes (_editorState (parentEditor w))) = None ->
    (forall node, updateMdastNode context node w = Ok w) /\
    (block props = true \/
     Mdast.root_children (exportLexicalTreeToMdast realm editor) <> [] ->
     exists w',
       BLUR_COMMAND_handler realm props context editor w = Ok (w', true) /\
       parentEditor w' = parentEditor w /\
       console w' = console w) /\
    (exists w' handled,
       dispatchCommand onError_default
         (BLUR_COMMAND_handler realm props context editor) w = Ok (w', handled) /\
       parentEditor w' = parentEditor w).
Proof.
  intros realm props context editor w Hstale.
  assert (Hok : forall content,
             exportedContent (block props) (exportLexicalTreeToMdast realm editor)
             = Ok content ->
             exists w',
               BLUR_COMMAND_handler realm props context editor w = Ok (w', true) /\
               parentEditor w' = parentEditor w /\
               console w' = console w).
  { intros content Hc. unfold BLUR_COMMAND_handler. rewrite Hc. cbn [Js.bind].
    rewrite updateMdastNode_stale by exact Hstale. cbn [Js.bind].
    eexists. split; [reflexivity|]. split; reflexivity. }
  split; [|split].
  - intros node. apply updateMdastNode_stale. exact Hstale.
  - intros Hexp.
    assert (Hc : exists content,
               exportedContent (block props) (exportLexicalTreeToMdast realm editor)
               = Ok content).
    { unfold exportedContent. destruct (block props); [eauto|].
      destruct Hexp as [Hb|Hne]; [discriminate|].
      destruct (Mdast.root_children _); [congruence | eauto]. }
    destruct Hc as [content Hc]. exact (Hok content Hc).
  - unfold dispatchCommand.
    destruct (exportedContent (block props) (exportLexicalTreeToMdast realm editor))
      as [content|e] eqn:Hc.
    + destruct (Hok content eq_refl) as (w' & -> & Hp & _).
      exists w', true. split; [reflexivity | exact Hp].
    + unfold BLUR_COMMAND_handler. rewrite Hc. simpl.
      eexists. eexists. split; reflexivity.
Qed.

Lemma blur_after_removal_is_a_no_op_witness :
  let w := Sample.world onError_rethrow [Sample.before; Sample.after] in
  lookup_key "7" (nodes (_editorState (parentEditor w))) = None /\
  (exists w',
      BLUR_COMMAND_handler Mirror.realm (Sample.props false) (Sample.context [])
        Sample.typed_hello w = Ok (w', true) /\
      parentEditor w' = parentEditor w /\
      console w' = console w) /\
  (exists w' handled,
      dispatchCommand onError_default
        (BLUR_COMMAND_handler Mirror.realm (Sample.props false) (Sample.context [])
           createEditor) w = Ok (w', handled) /\
      parentEditor w' = parentEditor w).
Proof.
  cbv zeta. split; [reflexivity|].
  destruct (blur_after_removal_is_a_no_op Mirror.realm (Sample.props false)
              (Sample.context []) Sample.typed_hello
              (Sample.world onError_rethrow [Sample.before; Sample.after]) eq_refl)
    as (_ & Hblur & _).
  destruct (blur_after_removal_is_a_no_op Mirror.realm (Sample.props false)
              (Sample.context []) createEditor
              (Sample.world onError_rethrow [Sample.before; Sample.after]) eq_refl)
    as (_ & _ & Hdispatch).
  split; [apply Hblur; right; discriminate | exact Hdispatch].
Defined.

(** ** Removal *)

(** C4: the code at a parent surface from which the owning node is gone.
    The removal does not skip: [$getNodeByKey] gives [null], the call of
    [selectNext] on it throws a [TypeError] inside the update, the parent
    surface is left as it was, and the error is handed to the [onError] of
    the parent surface, which decides whether it is thrown on or reported. *)
Theorem removeNode_on_removed_node_raises :
  forall context w,
    lookup_key (getKey (lexicalNode context))
               (nodes (_editorState (parentEditor w))) = None ->
    removeNode context w =
    match _onError (parentEditor w)
            (MkError "TypeError" "Cannot read properties of null (reading 'selectNext')")
            (console w) with
    | Ok c => Ok (MkWorld (parentEditor w) c (updaterCalls w))
    | Throw e => Throw e
    end.
Proof.
  intros context w Hstale. rewrite removeNode_stale by exact Hstale. reflexivity.
Qed.

Lemma removeNode_on_removed_node_raises_witness :
  let err := MkError "TypeError" "Cannot read properties of null (reading 'selectNext')" in
  let ns := [Sample.before; Sample.after] in
  lookup_key "7" ns = None /\
  removeNode (Sample.context []) (Sample.world onError_rethrow ns) = Throw err /\
  removeNode (Sample.context []) (Sample.world Sample.onError_log ns)
    = Ok (MkWorld (Sample.parent Sample.onError_log ns) [err] []) /\
  updateMdastNode (Sample.context []) (Sample.callout []) (Sample.world onError_rethrow ns)
    = Ok (Sample.world onError_rethrow ns).
Proof.
  cbv zeta. split; [reflexivity|]. split; [|split].
  - exact (removeNode_on_removed_node_raises (Sample.context [])
             (Sample.world onError_rethrow [Sample.before; Sample.after]) eq_refl).
  - exact (removeNode_on_removed_node_raises (Sample.context [])
             (Sample.world Sample.onError_log [Sample.before; Sample.after]) eq_refl).
  - reflexivity.
Defined.

Lemma is_newline_spec innerText :
  is_newline innerText = true <-> innerText = Some newline.
Proof.
  destruct innerText as [t|]; simpl.
  - rewrite String.eqb_eq. split; [intros ->; reflexivity | intros [= ->]; reflexivity].
  - split; discriminate.
Qed.



(** ** The wrapper *)

(** C9: the [onError] of [standardConfig] reports its error with
    [console.error] and returns; so an error thrown while the root surface
    of the wrapper is filled from the markdown source is appended to the
    console and the construction returns, with the root left empty; when
    the import succeeds nothing is reported.  In no case does the
    construction throw. *)
Theorem wrapper_reports_construction_errors :
  forall importMarkdownToLexical markdown c,
    (forall error c0,
        Wrapper.onError (Wrapper.standardConfig importMarkdownToLexical markdown) error c0
        = Ok (c0 ++ [error])) /\
    (forall error,
        importMarkdownToLexical [] markdown = Throw error ->
        Wrapper.Wrapper importMarkdownToLexical markdown c = Ok ([], c ++ [error])) /\
    (forall root,
        importMarkdownToLexical [] markdown = Ok root ->
        Wrapper.Wrapper importMarkdownToLexical markdown c = Ok (root, c)) /\
    returns (Wrapper.Wrapper importMarkdownToLexical markdown c).
Proof.
  intros imp markdown c. split; [reflexivity|].
  unfold Wrapper.Wrapper, Wrapper.LexicalComposer. simpl. unfold createEditor.
  destruct (imp [] markdown) as [root|error]; simpl.
  - split; [discriminate|]. split; [intros ? [= ->]; reflexivity | exact I].
  - split; [intros ? [= ->]; reflexivity|]. split; [discriminate | exact I].
Qed.

Lemma wrapper_reports_construction_errors_witness :
  Sample.strict_import [] "# <" = Throw Sample.parse_error /\
  Wrapper.Wrapper Sample.strict_import "# <" [] = Ok ([], [Sample.parse_error]).
Proof.
  split; [reflexivity|].
  apply (wrapper_reports_construction_errors Sample.strict_import "# <" []).
  reflexivity.
Defined.

(** ** The copy made before the updater is called *)

Import ObjectGraph.

Lemma Content_induction (P : Mdast.Content -> Prop) :
  (forall ty v cs, Forall P cs -> P (Mdast.MkContent ty v cs)) ->
  forall c, P c.
Proof.
  intros step. fix IH 1. intros [ty v cs]. apply step.
  induction cs as [|c cs IHcs]; constructor; [apply IH | exact IHcs].
Qed.

Lemma represents_unfold (h : Heap) ty v cs a :
  represents h (Mdast.MkContent ty v cs) a <->
  exists o, h !! a = Some o /\ obj_type o = ty /\ obj_value o = v /\
            Forall2 (represents h) cs (obj_children o).
Proof.
  simpl. split; intros (o & Ho & Hty & Hv & Hall); exists o; repeat split; try assumption.
  - revert Hall. generalize (obj_children o) as rs.
    induction cs as [|c cs IH]; intros [|r rs]; simpl; intros H;
      try contradiction; constructor; [tauto | apply IH; tauto].
  - induction Hall; simpl; [exact I | split; assumption].
Qed.

Lemma represents_bound (h : Heap) t a :
  represents h t a -> a < length h.
Proof.
  destruct t as [ty v cs]. intros (o & Ho & _). eapply lookup_lt_Some. exact Ho.
Qed.

Lemma represents_functional (h : Heap) :
  forall t1 t2 a, represents h t1 a -> represents h t2 a -> t1 = t2.
Proof.
  intros t1. induction t1 as [ty1 v1 cs1 IH] using Content_induction.
  intros [ty2 v2 cs2] a H1 H2.
  apply represents_unfold in H1 as (o1 & Ho1 & <- & <- & Hall1).
  apply represents_unfold in H2 as (o2 & Ho2 & <- & <- & Hall2).
  rewrite Ho1 in Ho2. injection Ho2 as <-. f_equal.
  revert cs2 Hall2. induction Hall1 as [|c r cs rs Hc Hcs IHcs]; intros cs2 Hall2.
  - inversion Hall2. reflexivity.
  - inversion Hall2 as [|c2 ? cs2' ? Hc2 Hcs2]; subst.
    inversion IH as [|? ? IHc IHrest]; subst. f_equal.
    + eapply IHc; eassumption.
    + apply IHcs; assumption.
Qed.

(** The store may grow and objects outside the tree may change. *)
Lemma represents_agree (h h' : Heap) :
  (forall x, x < length h -> h' !! x = h !! x) ->
  forall t a, represents h t a -> represents h' t a.
Proof.
  intros Hagree t. induction t as [ty v cs IH] using Content_induction.
  intros a H. apply represents_unfold in H as (o & Ho & Hty & Hv & Hall).
  apply represents_unfold. exists o. repeat split; try assumption.
  - rewrite Hagree; [exact Ho | eapply lookup_lt_Some; exact Ho].
  - clear Ho. induction Hall as [|c r cs rs Hc Hcs IHcs]; constructor.
    + inversion IH; subst. auto.
    + inversion IH; subst. auto.
Qed.

Lemma represents_app (h suf : Heap) t a :
  represents h t a -> represents (h ++ suf) t a.
Proof.
  apply represents_agree. intros x Hx. apply lookup_app_l. exact Hx.
Qed.

Lemma size_child c cs :
  In c cs -> Mdast.size c <= list_sum (map Mdast.size cs).
Proof.
  induction cs as [|d cs IH]; simpl; [contradiction|].
  intros [->|Hin]; [lia | specialize (IH Hin); lia].
Qed.

Lemma depth_child c cs :
  In c cs -> Mdast.depth c <= list_max (map Mdast.depth cs).
Proof.
  induction cs as [|d cs IH]; simpl; [contradiction|].
  intros [->|Hin]; [lia | specialize (IH Hin); lia].
Qed.

Lemma deepest_child cs :
  cs <> [] -> exists c, In c cs /\ Mdast.depth c = list_max (map Mdast.depth cs).
Proof.
  induction cs as [|d cs IH]; [congruence|]. intros _.
  destruct cs as [|e cs].
  - exists d. split; [left; reflexivity | simpl; lia].
  - destruct IH as (c & Hin & Hc); [discriminate|].
    change (list_max (map Mdast.depth (d :: e :: cs)))
      with (Nat.max (Mdast.depth d) (list_max (map Mdast.depth (e :: cs)))).
    destruct (Nat.max_spec (Mdast.depth d) (list_max (map Mdast.depth (e :: cs))))
      as [[_ ->]|[_ ->]].
    + exists c. split; [right; exact Hin | exact Hc].
    + exists d. split; [left; reflexivity | reflexivity].
Qed.

Lemma Forall2_In_l {A B} (R : A -> B -> Prop) l1 l2 x :
  Forall2 R l1 l2 -> In x l1 -> exists y, In y l2 /\ R x y.
Proof.
  induction 1 as [|a b l1 l2 Hab _ IH]; simpl; [contradiction|].
  intros [->|Hin]; [eauto | destruct (IH Hin) as (y & ? & ?); eauto].
Qed.

(** Along a branch of a tree held in the store the references are pairwise
    distinct, so the tree is no deeper than the store is long. *)
Lemma branch_of_distinct_references (h : Heap) :
  forall t a, represents h t a ->
  exists l : list Ref,
    length l = Mdast.depth t /\ List.NoDup l /\
    forall x, In x l ->
      exists t', represents h t' x /\ Mdast.size t' <= Mdast.size t.
Proof.
  intros t. induction t as [ty v cs IH] using Content_induction. intros a Hrep.
  destruct cs as [|c0 cs0].
  - exists [a]. split; [reflexivity|]. split.
    + constructor; [simpl; tauto | constructor].
    + intros x [<-|[]]. eauto.
  - remember (c0 :: cs0) as cs eqn:Hcs.
    destruct (deepest_child cs) as (c & Hin & Hdepth); [subst cs; discriminate|].
    clear Hcs.
    pose proof Hrep as Hrep'.
    apply represents_unfold in Hrep' as (o & Ho & _ & _ & Hall).
    destruct (Forall2_In_l _ _ _ _ Hall Hin) as (r & _ & Hr).
    rewrite List.Forall_forall in IH.
    destruct (IH c Hin r Hr) as (l & Hlen & Hnd & Hl).
    assert (Hsize : Mdast.size c < Mdast.size (Mdast.MkContent ty v cs)).
    { simpl. pose proof (size_child c cs Hin). lia. }
    exists (a :: l). split; [|split].
    + simpl. rewrite Hlen, Hdepth. reflexivity.
    + constructor; [|exact Hnd]. intros Ha.
      destruct (Hl a Ha) as (t' & Ht' & Hle).
      rewrite (represents_functional h _ _ a Ht' Hrep) in Hle. lia.
    + intros x [<-|Hx]; [eauto|].
      destruct (Hl x Hx) as (t' & Ht' & Hle). exists t'. split; [exact Ht' | lia].
Qed.

Lemma depth_bounded_by_store (h : Heap) t a :
  represents h t a -> Mdast.depth t <= length h.
Proof.
  intros Hrep.
  destruct (branch_of_distinct_references h t a Hrep) as (l & <- & Hnd & Hl).
  pose proof (@List.NoDup_incl_length _ l (seq 0 (length h)) Hnd) as Hle.
  rewrite List.length_seq in Hle. apply Hle.
  intros x Hx. apply List.in_seq.
  destruct (Hl x Hx) as (t' & Ht' & _). apply represents_bound in Ht'. lia.
Qed.

Lemma children_from_weaken n m suf :
  n <= m -> children_from m suf -> children_from n suf.
Proof.
  intros Hle. unfold children_from. apply List.Forall_impl. intros o.
  apply List.Forall_impl. intros r. lia.
Qed.

Lemma clone_all_creates clone1 :
  (forall a out c out', clone1 a out = Some (c, out') ->
     exists suf, out' = out ++ suf /\ length out <= c /\
                 children_from (length out) suf) ->
  forall rs out cs out', clone_all clone1 rs out = Some (cs, out') ->
    exists suf, out' = out ++ suf /\ Forall (fun r => length out <= r) cs /\
                children_from (length out) suf.
Proof.
  intros Hone rs. induction rs as [|r rest IH]; simpl; intros out cs out' H.
  - injection H as <- <-. exists []. rewrite app_nil_r.
    repeat split; constructor.
  - destruct (clone1 r out) as [[r' out1]|] eqn:E1; [|discriminate].
    destruct (clone_all clone1 rest out1) as [[rest' out2]|] eqn:E2; [|discriminate].
    injection H as <- <-.
    destruct (Hone _ _ _ _ E1) as (suf1 & -> & Hr' & Hsuf1).
    destruct (IH _ _ _ E2) as (suf2 & -> & Hrest' & Hsuf2).
    assert (Hlen : length out <= length (out ++ suf1)) by (rewrite length_app; lia).
    exists (suf1 ++ suf2). rewrite app_assoc. split; [reflexivity|]. split.
    + constructor; [exact Hr'|].
      revert Hrest'. apply List.Forall_impl. intros x. lia.
    + apply List.Forall_app. split; [exact Hsuf1|].
      eapply children_from_weaken; eassumption.
Qed.

(** The copy consists of objects created at the end of the store, whose
    children are among the created objects as well. *)
Lemma clone_creates fuel src :
  forall a out c out', clone fuel src a out = Some (c, out') ->
    exists suf, out' = out ++ suf /\ length out <= c /\
                children_from (length out) suf.
Proof.
  induction fuel as [|fuel IH]; simpl; intros a out c out' H; [discriminate|].
  destruct (src !! a) as [o|]; [|discriminate].
  destruct (clone_all (clone fuel src) (obj_children o) out) as [[cs out1]|] eqn:E;
    [|discriminate].
  injection H as <- <-.
  destruct (clone_all_creates _ IH _ _ _ _ E) as (suf & -> & Hcs & Hsuf).
  exists (suf ++ [MkObj (obj_type o) (obj_value o) cs]).
  rewrite app_assoc. split; [reflexivity|]. split.
  - rewrite length_app. lia.
  - apply List.Forall_app. split; [exact Hsuf|].
    constructor; [exact Hcs | constructor].
Qed.

Lemma clone_all_total clone1 rs :
  Forall (fun r => forall out, exists c out', clone1 r out = Some (c, out')) rs ->
  forall out, exists cs out', clone_all clone1 rs out = Some (cs, out').
Proof.
  induction 1 as [|r rest Hr _ IH]; intros out; simpl.
  - eauto.
  - destruct (Hr out) as (r' & out1 & ->).
    destruct (IH out1) as (rest' & out2 & ->). eauto.
Qed.

(** With as many steps as the tree is deep, the copy is made. *)
Lemma clone_total src :
  forall t a, represents src t a ->
  forall fuel out, Mdast.depth t <= fuel ->
    exists c out', clone fuel src a out = Some (c, out').
Proof.
  intros t. induction t as [ty v cs IH] using Content_induction.
  intros a Hrep fuel out Hfuel.
  destruct fuel as [|fuel]; [simpl in Hfuel; lia|].
  apply represents_unfold in Hrep as (o & Ho & _ & _ & Hall).
  simpl. rewrite Ho.
  destruct (clone_all_total (clone fuel src) (obj_children o)) with (out := out)
    as (cs' & out1 & ->); [|eauto].
  rewrite List.Forall_forall in IH.
  clear Ho. induction Hall as [|c r cs rs Hc _ IHall]; constructor.
  - intros out0. apply (IH c); [left; reflexivity | exact Hc |].
    pose proof (depth_child c (c :: cs) (or_introl eq_refl)).
    change (Mdast.depth (Mdast.MkContent ty v (c :: cs)))
      with (S (list_max (map Mdast.depth (c :: cs)))) in Hfuel. lia.
  - apply IHall.
    + intros x Hx. apply IH. right. exact Hx.
    + change (Mdast.depth (Mdast.MkContent ty v (c :: cs)))
        with (S (Nat.max (Mdast.depth c) (list_max (map Mdast.depth cs)))) in Hfuel.
      change (Mdast.depth (Mdast.MkContent ty v cs))
        with (S (list_max (map Mdast.depth cs))). lia.
Qed.

(** The copy holds the same tree as the original. *)
Lemma clone_copies src :
  forall t a, represents src t a ->
  forall fuel out c out', clone fuel src a out = Some (c, out') ->
    represents out' t c.
Proof.
  intros t. induction t as [ty v cs IH] using Content_induction.
  intros a Hrep fuel out c out' H.
  destruct fuel as [|fuel]; [discriminate|].
  apply represents_unfold in Hrep as (o & Ho & <- & <- & Hall).
  simpl in H. rewrite Ho in H.
  destruct (clone_all (clone fuel src) (obj_children o) out) as [[cs' out1]|] eqn:E;
    [|discriminate].
  injection H as <- <-.
  apply represents_unfold. eexists. split.
  { rewrite lookup_app_r by lia. rewrite Nat.sub_diag. reflexivity. }
  simpl. repeat split.
  apply Forall2_impl with (P := represents out1); [|intros; apply represents_app; assumption].
  clear Ho. revert out cs' out1 E.
  induction Hall as [|c r cs rs Hc _ IHall]; simpl; intros out cs' out1 E.
  - injection E as <- <-. constructor.
  - destruct (clone fuel src r out) as [[r' o1]|] eqn:E1; [|discriminate].
    destruct (clone_all (clone fuel src) rs o1) as [[rest' o2]|] eqn:E2; [|discriminate].
    injection E as <- <-.
    inversion IH as [|? ? IHc IHrest]; subst.
    destruct (clone_all_creates _ (clone_creates fuel src) _ _ _ _ E2) as (suf & -> & _).
    constructor.
    + apply represents_app. eapply IHc; eassumption.
    + eapply IHall; eassumption.
Qed.

Lemma reach_stays_above (h : Heap) n :
  (forall y o, n <= y -> h !! y = Some o -> Forall (fun r => n <= r) (obj_children o)) ->
  forall a x, reach h a x -> n <= a -> n <= x.
Proof.
  intros Hclosed a x Hreach. induction Hreach as [a|a o b x Ho Hb _ IH]; intros Ha.
  - exact Ha.
  - apply IH. specialize (Hclosed a o Ha Ho).
    rewrite List.Forall_forall in Hclosed. apply Hclosed. exact Hb.
Qed.

(** [structuredClone] of a tree held in the store returns a reference to a
    new object that holds the same tree; the store before the call is a
    prefix of the store after it; and nothing that was in the store before
    is reached from the copy. *)
Lemma structuredClone_is_deep (h : Heap) t a :
  represents h t a ->
  exists copy suf,
    structuredClone h a = Some (copy, h ++ suf) /\
    length h <= copy /\
    represents (h ++ suf) t copy /\
    forall x, reach (h ++ suf) copy x -> length h <= x.
Proof.
  intros Hrep. unfold structuredClone.
  destruct (clone_total h t a Hrep (S (length h)) h) as (copy & h1 & Hclone).
  { pose proof (depth_bounded_by_store h t a Hrep). lia. }
  destruct (clone_creates _ _ _ _ _ _ Hclone) as (suf & -> & Hcopy & Hsuf).
  exists copy, suf. split; [exact Hclone|]. split; [exact Hcopy|]. split.
  - eapply clone_copies; eassumption.
  - intros x Hreach. eapply reach_stays_above; [|exact Hreach|exact Hcopy].
    intros y o Hy Hlook. rewrite lookup_app_r in Hlook by exact Hy.
    unfold children_from in Hsuf. rewrite List.Forall_forall in Hsuf.
    apply Hsuf. apply list_elem_of_In. eapply list_elem_of_lookup_2. exact Hlook.
Qed.

Lemma spread_updater_assigns_through_argument :
  assigns_through_argument spread_updater.
Proof.
  intros a cs h. unfold spread_updater. destruct (h !! a) as [o|]; simpl.
  - split; [rewrite length_app; lia|]. intros x Hx _. apply lookup_app_l. exact Hx.
  - split; [lia | reflexivity].
Qed.

Lemma overwrite_updater_assigns_through_argument :
  assigns_through_argument overwrite_updater.
Proof.
  intros a cs h. unfold overwrite_updater.
  destruct (h !! a) as [o|] eqn:Ho; [|split; [simpl; lia | reflexivity]].
  set (h1 := match obj_children o with
             | [] => h
             | c :: _ =>
                 match h !! c with
                 | Some oc => <[c := MkObj (obj_type oc) (Some "overwritten") (obj_children oc)]> h
                 | None => h
                 end
             end).
  assert (Hlen : length h1 = length h).
  { subst h1. destruct (obj_children o) as [|c ?]; [reflexivity|].
    destruct (h !! c); [apply length_insert | reflexivity]. }
  assert (Hframe : forall x, ~ reach h a x -> h1 !! x = h !! x).
  { intros x Hx. subst h1. destruct (obj_children o) as [|c rest] eqn:Hcs; [reflexivity|].
    destruct (h !! c); [|reflexivity].
    apply list_lookup_insert_ne. intros <-. apply Hx.
    eapply reach_child; [exact Ho | rewrite Hcs; left; reflexivity | apply reach_here]. }
  destruct (h1 !! a) as [o1|]; simpl.
  - split; [rewrite length_insert; lia|]. intros x _ Hx.
    rewrite list_lookup_insert_ne; [apply Hframe; exact Hx|].
    intros <-. apply Hx. apply reach_here.
  - split; [lia|]. intros x _ Hx. apply Hframe. exact Hx.
Qed.

(** C10: the blur path calls [getUpdatedMdastNode] on a copy made by
    [structuredClone]: a new object, holding the same tree as the mdast
    node of the context, from which no object of the store before the call
    is reached.  So whatever an updater assigns through its argument, every
    object that existed before the call is afterwards as it was, and the
    mdast node passed into the adapter still holds the same tree. *)
Theorem blur_export_leaves_original_untouched :
  forall (getUpdatedMdastNode : Updater) (h : Heap) mdastNode t content,
    assigns_through_argument getUpdatedMdastNode ->
    represents h t mdastNode ->
    exists copy h1,
      structuredClone h mdastNode = Some (copy, h1) /\
      copy <> mdastNode /\
      represents h1 t copy /\
      blur_export getUpdatedMdastNode h mdastNode content
        = Some (getUpdatedMdastNode copy content h1) /\
      (forall x, x < length h ->
                 snd (getUpdatedMdastNode copy content h1) !! x = h !! x) /\
      represents (snd (getUpdatedMdastNode copy content h1)) t mdastNode.
Proof.
  intros u h mdastNode t content Hu Hrep.
  destruct (structuredClone_is_deep h t mdastNode Hrep)
    as (copy & suf & Hclone & Hfresh & Hcopy & Hreach).
  exists copy, (h ++ suf).
  assert (Hframe : forall x, x < length h ->
                     snd (u copy content (h ++ suf)) !! x = h !! x).
  { intros x Hx. destruct (Hu copy content (h ++ suf)) as [_ Hkeep].
    rewrite Hkeep.
    - apply lookup_app_l. exact Hx.
    - rewrite length_app. lia.
    - intros Hr. apply Hreach in Hr. lia. }
  split; [exact Hclone|]. split.
  { apply represents_bound in Hrep. lia. }
  split; [exact Hcopy|]. split.
  { unfold blur_export. rewrite Hclone. reflexivity. }
  split; [exact Hframe|].
  eapply represents_agree; [exact Hframe | exact Hrep].
Qed.

Lemma blur_export_leaves_original_untouched_witness :
  let t := Mdast.paragraph [Mdast.text "hello"] in
  represents sample_heap t 1 /\
  exists copy h1,
    structuredClone sample_heap 1 = Some (copy, h1) /\
    copy <> 1 /\
    represents h1 t copy /\
    blur_export overwrite_updater sample_heap 1 []
      = Some (overwrite_updater copy [] h1) /\
    (forall x, x < length sample_heap ->
               snd (overwrite_updater copy [] h1) !! x = sample_heap !! x) /\
    represents (snd (overwrite_updater copy [] h1)) t 1.
Proof.
  cbv zeta.
  assert (Hrep : represents sample_heap (Mdast.paragraph [Mdast.text "hello"]) 1).
  { simpl. eexists. split; [reflexivity|]. repeat split.
    eexists. split; [reflexivity|]. repeat split. }
  split; [exact Hrep|].
  exact (blur_export_leaves_original_untouched overwrite_updater sample_heap 1
           (Mdast.paragraph [Mdast.text "hello"]) []
           overwrite_updater_assigns_through_argument Hrep).
Defined.

(** What the copy buys: the same updater on the same store. *)
Lemma copy_shields_the_original :
  blur_export overwrite_updater sample_heap 1 []
  = Some (3, [MkObj "text" (Some "hello") []; MkObj "paragraph" None [0];
              MkObj "text" (Some "overwritten") []; MkObj "paragraph" None []]) /\
  blur_export_uncopied overwrite_updater sample_heap 1 []
  = (1, [MkObj "text" (Some "overwritten") []; MkObj "paragraph" None []]).
Proof.
  split; reflexivity.
Qed.

(** The two views of line 183 agree: on the store, the updater of the
    documentation example produces an object that holds the tree which
    the same updater computes on tree values. *)
Lemma blur_export_spread_agrees (h : Heap) t a cs rs :
  represents h t a ->
  Forall2 (represents h) cs rs ->
  exists updated h',
    blur_export spread_updater h a rs = Some (updated, h') /\
    represents h'
      (getUpdatedMdastNode (Sample.props false) (NestedLexicalEditor.structuredClone t) cs)
      updated.
Proof.
  intros Hrep Hcs.
  destruct (structuredClone_is_deep h t a Hrep) as (copy & suf & Hclone & _ & Hcopy & _).
  unfold blur_export. rewrite Hclone. unfold spread_updater.
  destruct t as [ty v cs0].
  apply represents_unfold in Hcopy as (o & Ho & Hty & Hv & _).
  rewrite Ho. eexists. eexists. split; [reflexivity|].
  unfold NestedLexicalEditor.structuredClone. simpl getUpdatedMdastNode.
  apply represents_unfold. eexists. split.
  { rewrite lookup_app_r by lia. rewrite Nat.sub_diag. reflexivity. }
  simpl. repeat split; try assumption.
  eapply Forall2_impl; [exact Hcs|]. intros c r Hc.
  apply represents_app, represents_app. exact Hc.
Qed.

(* ===================================================================== *)
(** * Further properties of the adapter                                    *)
(* ===================================================================== *)

(** ** What the import effect imports *)

(** X1: the import effect always gives the import an emptied root and a
    list of nodes that is never empty: one synthetic paragraph around the
    content in inline mode, and in block mode as many nodes as the content
    has, but at least one.  When the import returns, the child surface
    holds its result and nothing is reported; when it throws, the child
    surface is as before the effect and the error is written to the
    console. *)
Theorem import_effect_never_imports_an_empty_root :
  forall realm (block : bool) (content : list Mdast.Content) root c,
    exists imported : list Mdast.Content,
      imported <> [] /\
      length imported = (if block then Nat.max 1 (length content) else 1) /\
      (forall node, In node content -> block = true -> In node imported) /\
      (block = false ->
       exists p, imported = [p] /\ Mdast.type p = "paragraph" /\ Mdast.children p = content) /\
      importEffect_update realm block content root c
        = match importMdastTreeToLexical realm (importVisitors realm) []
                  (Mdast.MkRoot imported) with
          | Ok surface => (surface, c)
          | Throw e => (root, c ++ [e])
          end.
Proof.
  intros realm block content root c. exists (theContent block content).
  assert (Hlast : importEffect_update realm block content root c
                  = match importMdastTreeToLexical realm (importVisitors realm) []
                            (Mdast.MkRoot (theContent block content)) with
                    | Ok surface => (surface, c)
                    | Throw e => (root, c ++ [e])
                    end) by reflexivity.
  split; [|split; [|split; [|split; [|exact Hlast]]]].
  - destruct block; [destruct content|]; discriminate.
  - destruct block; [destruct content|]; reflexivity.
  - intros node Hin ->. destruct content; [destruct Hin | exact Hin].
  - intros ->. eexists. repeat split.
Qed.

(** ** Renders *)

Lemma rerender_settles realm props context outer inst :
  exists inst',
    rerender realm props (Some context :: outer) inst = Ok inst' /\
    effectDeps inst' = (block props, importVisitors realm).
Proof.
  unfold rerender. simpl.
  destruct (same_deps (effectDeps inst) (block props, importVisitors realm)) eqn:E.
  - exists inst. split; [reflexivity|]. apply same_deps_spec. exact E.
  - eexists. split; reflexivity.
Qed.

Lemma rerender_settled realm props providers inst context :
  useContext providers = Some context ->
  effectDeps inst = (block props, importVisitors realm) ->
  rerender realm props providers inst = Ok inst.
Proof.
  intros Hctx Hdeps. unfold rerender, useNestedEditorContext. rewrite Hctx. simpl.
  apply same_deps_spec in Hdeps. rewrite Hdeps. reflexivity.
Qed.

(** X2: once the component has rendered (first render or any later one),
    any number of further renders under the same block flag and the same
    import visitors return the very same instance, whatever mdast nodes
    the providers of these renders supply: the child surface is not
    imported again. *)
Theorem renders_after_the_first_keep_the_child_surface :
  forall realm props providers0 inst0 inst renders,
    mount realm props providers0 = Ok inst \/
    rerender realm props providers0 inst0 = Ok inst ->
    Forall (fun providers => useContext providers <> None) renders ->
    Session.rerenders realm props renders inst = Ok inst.
Proof.
  intros realm props providers0 inst0 inst renders Hfirst Hall.
  assert (Hdeps : effectDeps inst = (block props, importVisitors realm)).
  { destruct Hfirst as [H|H].
    - unfold mount in H.
      destruct (useNestedEditorContext providers0); [|discriminate].
      simpl in H. injection H as <-. reflexivity.
    - unfold rerender, useNestedEditorContext in H.
      destruct (useContext providers0) as [context|]; [|discriminate].
      destruct (rerender_settles realm props context [] inst0) as (inst' & Hr & Hd).
      unfold rerender in Hr. simpl in Hr, H. rewrite H in Hr. injection Hr as <-.
      exact Hd. }
  induction Hall as [|providers later Hp _ IH]; simpl; [reflexivity|].
  destruct (useContext providers) as [context|] eqn:Hctx; [|congruence].
  rewrite (rerender_settled realm props providers inst context Hctx Hdeps).
  exact IH.
Qed.

Lemma renders_after_the_first_keep_the_child_surface_witness :
  let props := Sample.props false in
  let first := [Some (Sample.context [Mdast.text "a"])] in
  let inst := MkInstance [MkNode "paragraph" None [MkNode "text" (Some "a") []]] (false, 0) in
  mount Mirror.realm props first = Ok inst /\
  Session.rerenders Mirror.realm props
    [[Some (Sample.context [Mdast.text "b"])]; [Some (Sample.context [])]] inst = Ok inst.
Proof.
  cbv zeta. split; [reflexivity|].
  apply (renders_after_the_first_keep_the_child_surface Mirror.realm (Sample.props false)
           [Some (Sample.context [Mdast.text "a"])]
           (MkInstance [] (false, 0))).
  - left. reflexivity.
  - repeat constructor; discriminate.
Defined.

(** X3: without a provider value the component does not render and the
    two hooks return no closure: the first render, every later render,
    [useMdastNodeUpdater] and [useLexicalNodeRemove] all throw the error
    of [useNestedEditorContext]; with a provider value all four return. *)
Theorem component_and_hooks_require_provider :
  forall realm props providers inst,
    let err := MkError "Error" "useNestedEditor must be used within a NestedEditorsProvider" in
    (useContext providers = None ->
       mount realm props providers = Throw err /\
       rerender realm props providers inst = Throw err /\
       useMdastNodeUpdater providers = Throw err /\
       useLexicalNodeRemove providers = Throw err) /\
    (useContext providers <> None ->
       returns (mount realm props providers) /\
       returns (rerender realm props providers inst) /\
       returns (useMdastNodeUpdater providers) /\
       returns (useLexicalNodeRemove providers)).
Proof.
  intros realm props providers inst err. split.
  - intros Hnone.
    unfold mount, rerender, useMdastNodeUpdater, useLexicalNodeRemove,
      useNestedEditorContext. rewrite Hnone. repeat split.
  - intros Hsome.
    unfold mount, rerender, useMdastNodeUpdater, useLexicalNodeRemove,
      useNestedEditorContext.
    destruct (useContext providers) as [context|]; [|congruence]. simpl.
    repeat split.
    destruct (same_deps _ _); exact I.
Qed.

Lemma component_and_hooks_require_provider_witness :
  let err := MkError "Error" "useNestedEditor must be used within a NestedEditorsProvider" in
  useContext [None; Some (Sample.context [])] = None /\
  mount Mirror.realm (Sample.props true) [None; Some (Sample.context [])] = Throw err /\
  rerender Mirror.realm (Sample.props true) [None; Some (Sample.context [])]
    (MkInstance [] (true, 0)) = Throw err /\
  useMdastNodeUpdater [None; Some (Sample.context [])] = Throw err /\
  useLexicalNodeRemove [None; Some (Sample.context [])] = Throw err.
Proof.
  cbv zeta. split; [reflexivity|].
  apply (component_and_hooks_require_provider Mirror.realm (Sample.props true)
           [None; Some (Sample.context [])] (MkInstance [] (true, 0))).
  reflexivity.
Defined.

(** ** The parent surface under the two closures *)

Lemma set_mdast_keys k m ns :
  map getKey (set_mdast k m ns) = map getKey ns.
Proof.
  induction ns as [|n ns IH]; simpl; [reflexivity|].
  destruct (String.eqb (getKey n) k) eqn:E; simpl.
  - apply String.eqb_eq in E. rewrite E. reflexivity.
  - rewrite IH. reflexivity.
Qed.

Lemma set_mdast_absent k m ns :
  lookup_key k ns = None -> set_mdast k m ns = ns.
Proof.
  induction ns as [|n ns IH]; simpl; [reflexivity|].
  destruct (String.eqb (getKey n) k); [discriminate|].
  intros H. rewrite IH by exact H. reflexivity.
Qed.

Lemma set_mdast_twice k m1 m2 ns :
  set_mdast k m2 (set_mdast k m1 ns) = set_mdast k m2 ns.
Proof.
  induction ns as [|n ns IH]; simpl; [reflexivity|].
  destruct (String.eqb (getKey n) k) eqn:E; simpl.
  - rewrite String.eqb_refl. reflexivity.
  - rewrite E, IH. reflexivity.
Qed.

Lemma lookup_key_set_mdast_eq k m ns n :
  lookup_key k ns = Some n -> lookup_key k (set_mdast k m ns) = Some (MkDecorator k m).
Proof.
  induction ns as [|x ns IH]; simpl; [discriminate|].
  destruct (String.eqb (getKey x) k) eqn:E; simpl.
  - intros _. rewrite String.eqb_refl. reflexivity.
  - rewrite E. exact IH.
Qed.

Lemma lookup_key_set_mdast_ne k k' m ns :
  k' <> k -> lookup_key k' (set_mdast k m ns) = lookup_key k' ns.
Proof.
  intros Hne. induction ns as [|x ns IH]; simpl; [reflexivity|].
  destruct (String.eqb (getKey x) k) eqn:E; simpl.
  - apply String.eqb_eq in E. rewrite E.
    assert (E2 : String.eqb k k' = false) by (apply String.eqb_neq; congruence).
    rewrite E2. reflexivity.
  - destruct (String.eqb (getKey x) k'); [reflexivity | exact IH].
Qed.

Lemma lookup_key_notin k ns :
  ~ In k (map getKey ns) -> lookup_key k ns = None.
Proof.
  intros Hnot. apply lookup_key_absent. apply List.Forall_forall.
  intros x Hx Hk. apply Hnot. rewrite <- Hk. apply List.in_map. exact Hx.
Qed.

Lemma remove_key_gone k ns :
  List.NoDup (map getKey ns) -> lookup_key k (remove_key k ns) = None.
Proof.
  induction ns as [|n ns IH]; simpl; [reflexivity|].
  intros Hnd. inversion Hnd as [|? ? Hnot Hrest]; subst.
  destruct (String.eqb (getKey n) k) eqn:E.
  - apply String.eqb_eq in E. subst k. apply lookup_key_notin. exact Hnot.
  - simpl. rewrite E. apply IH. exact Hrest.
Qed.

Lemma lookup_key_remove_ne k k' ns :
  k' <> k -> lookup_key k' (remove_key k ns) = lookup_key k' ns.
Proof.
  intros Hne. induction ns as [|x ns IH]; simpl; [reflexivity|].
  destruct (String.eqb (getKey x) k) eqn:E.
  - apply String.eqb_eq in E.
    assert (E2 : String.eqb (getKey x) k' = false) by (apply String.eqb_neq; congruence).
    rewrite E2. reflexivity.
  - simpl. destruct (String.eqb (getKey x) k'); [reflexivity | exact IH].
Qed.

Lemma remove_key_length k ns n :
  lookup_key k ns = Some n -> S (length (remove_key k ns)) = length ns.
Proof.
  induction ns as [|x ns IH]; simpl; [discriminate|].
  destruct (String.eqb (getKey x) k); [reflexivity|].
  intros H. simpl. rewrite IH by exact H. reflexivity.
Qed.

(** What [updateMdastNode] does to any world. *)
Lemma updateMdastNode_run context node w :
  exists w',
    updateMdastNode context node w = Ok w' /\
    nodes (_editorState (parentEditor w'))
      = set_mdast (getKey (lexicalNode context)) node
          (nodes (_editorState (parentEditor w))) /\
    selection (_editorState (parentEditor w')) = selection (_editorState (parentEditor w)) /\
    _onError (parentEditor w') = _onError (parentEditor w) /\
    console w' = console w /\
    updaterCalls w' = updaterCalls w.
Proof.
  destruct (lookup_key (getKey (lexicalNode context))
              (nodes (_editorState (parentEditor w)))) as [owner|] eqn:Hlk.
  - rewrite (updateMdastNode_present context node w owner Hlk).
    eexists. split; [reflexivity|]. simpl. repeat split.
  - rewrite (updateMdastNode_stale context node w Hlk).
    exists w. split; [reflexivity|].
    rewrite (set_mdast_absent _ node _ Hlk). repeat split.
Qed.

(** What [removeNode] does when the owning node is there. *)
Lemma removeNode_run context w owner :
  lookup_key (getKey (lexicalNode context))
             (nodes (_editorState (parentEditor w))) = Some owner ->
  exists w',
    removeNode context w = Ok w' /\
    nodes (_editorState (parentEditor w'))
      = remove_key (getKey (lexicalNode context)) (nodes (_editorState (parentEditor w))) /\
    _onError (parentEditor w') = _onError (parentEditor w) /\
    map commit_tags (_commits (parentEditor w'))
      = map commit_tags (_commits (parentEditor w)) ++ [[]] /\
    console w' = console w /\
    updaterCalls w' = updaterCalls w.
Proof.
  intros Hlk. destruct (lookup_key_Some _ _ _ Hlk) as (l1 & l2 & Hnodes & Hkey & Hl1).
  rewrite (removeNode_present context w l1 owner l2 Hnodes Hkey Hl1).
  eexists. split; [reflexivity|]. simpl.
  rewrite Hnodes, (remove_key_app _ l1 owner l2 Hl1 Hkey), map_app. repeat split.
Qed.

(** X4: [updateMdastNode] never throws and never changes the shape of the
    parent surface: the keys of the nodes, their order, the selection and
    the console are as before, every node under another key is as before,
    and [getUpdatedMdastNode] is not called by it. *)
Theorem updateMdastNode_keeps_the_shape_of_the_parent :
  forall context node w,
    exists w',
      updateMdastNode context node w = Ok w' /\
      map getKey (nodes (_editorState (parentEditor w')))
        = map getKey (nodes (_editorState (parentEditor w))) /\
      (forall k, k <> getKey (lexicalNode context) ->
         lookup_key k (nodes (_editorState (parentEditor w')))
         = lookup_key k (nodes (_editorState (parentEditor w)))) /\
      selection (_editorState (parentEditor w')) = selection (_editorState (parentEditor w)) /\
      console w' = console w /\
      updaterCalls w' = updaterCalls w.
Proof.
  intros context node w.
  destruct (updateMdastNode_run context node w) as (w' & Hrun & Hnodes & Hsel & _ & Hc & Hu).
  exists w'. split; [exact Hrun|]. rewrite Hnodes. split; [apply set_mdast_keys|].
  split; [intros k Hk; apply lookup_key_set_mdast_ne; exact Hk|].
  repeat split; assumption.
Qed.

(** X5: of two successive calls of [updateMdastNode] the last one wins:
    the state of the parent surface after both is the state after the
    second alone, and when the owning node is there it carries the node
    given last. *)
Theorem updateMdastNode_last_write_wins :
  forall context node1 node2 w,
    exists w1 w2 w2',
      updateMdastNode context node1 w = Ok w1 /\
      updateMdastNode context node2 w1 = Ok w2 /\
      updateMdastNode context node2 w = Ok w2' /\
      _editorState (parentEditor w2) = _editorState (parentEditor w2') /\
      (forall owner,
          lookup_key (getKey (lexicalNode context))
                     (nodes (_editorState (parentEditor w))) = Some owner ->
          lookup_key (getKey (lexicalNode context))
                     (nodes (_editorState (parentEditor w2)))
          = Some (MkDecorator (getKey (lexicalNode context)) node2)).
Proof.
  intros context node1 node2 w.
  destruct (updateMdastNode_run context node1 w) as (w1 & Hrun1 & Hn1 & Hs1 & _).
  destruct (updateMdastNode_run context node2 w1) as (w2 & Hrun2 & Hn2 & Hs2 & _).
  destruct (updateMdastNode_run context node2 w) as (w2' & Hrun2' & Hn2' & Hs2' & _).
  exists w1, w2, w2'. repeat split; try assumption.
  - destruct (_editorState (parentEditor w2)) as [ns2 sel2].
    destruct (_editorState (parentEditor w2')) as [ns2' sel2'].
    simpl in *. subst ns2 ns2'. rewrite Hn1, set_mdast_twice. congruence.
  - intros owner Hlk. rewrite Hn2, Hn1, set_mdast_twice.
    eapply lookup_key_set_mdast_eq. exact Hlk.
Qed.

(** X6: with pairwise distinct keys in the parent surface, [removeNode]
    takes out the owning node and nothing else: afterwards its key no
    longer resolves, every other key resolves to the same node as before,
    and there is one node less.  The update it commits carries no tag, and
    [getUpdatedMdastNode] is not called. *)
Theorem removeNode_takes_only_the_owner :
  forall context w owner,
    List.NoDup (map getKey (nodes (_editorState (parentEditor w)))) ->
    lookup_key (getKey (lexicalNode context))
               (nodes (_editorState (parentEditor w))) = Some owner ->
    exists w',
      removeNode context w = Ok w' /\
      lookup_key (getKey (lexicalNode context))
                 (nodes (_editorState (parentEditor w'))) = None /\
      (forall k, k <> getKey (lexicalNode context) ->
         lookup_key k (nodes (_editorState (parentEditor w')))
         = lookup_key k (nodes (_editorState (parentEditor w)))) /\
      S (length (nodes (_editorState (parentEditor w'))))
        = length (nodes (_editorState (parentEditor w))) /\
      map commit_tags (_commits (parentEditor w'))
        = map commit_tags (_commits (parentEditor w)) ++ [[]] /\
      console w' = console w /\
      updaterCalls w' = updaterCalls w.
Proof.
  intros context w owner Hnd Hlk.
  destruct (removeNode_run context w owner Hlk) as (w' & Hrun & Hnodes & _ & Htags & Hc & Hu).
  exists w'. split; [exact Hrun|]. rewrite Hnodes.
  split; [apply remove_key_gone; exact Hnd|].
  split; [intros k Hk; apply lookup_key_remove_ne; exact Hk|].
  split; [eapply remove_key_length; exact Hlk|].
  repeat split; assumption.
Qed.

Lemma removeNode_takes_only_the_owner_witness :
  let w := Sample.world onError_rethrow [Sample.before; Sample.owner; Sample.after] in
  exists w',
    removeNode (Sample.context []) w = Ok w' /\
    lookup_key "7" (nodes (_editorState (parentEditor w'))) = None /\
    lookup_key "6" (nodes (_editorState (parentEditor w'))) = Some Sample.before /\
    lookup_key "8" (nodes (_editorState (parentEditor w'))) = Some Sample.after /\
    map commit_tags (_commits (parentEditor w')) = [[]].
Proof.
  cbv zeta.
  destruct (removeNode_takes_only_the_owner (Sample.context [])
              (Sample.world onError_rethrow [Sample.before; Sample.owner; Sample.after])
              Sample.owner)
    as (w' & Hrun & Hgone & Hothers & _ & Htags & _).
  - repeat constructor; simpl; intuition discriminate.
  - reflexivity.
  - exists w'. split; [exact Hrun|]. split; [exact Hgone|].
    split; [rewrite Hothers by discriminate; reflexivity|].
    split; [rewrite Hothers by discriminate; reflexivity|].
    exact Htags.
Defined.

(** ** The two handlers, alone and in sequence *)

Lemma BLUR_COMMAND_handler_run realm props context editor w content :
  exportedContent (block props) (exportLexicalTreeToMdast realm editor) = Ok content ->
  BLUR_COMMAND_handler realm props context editor w =
  let! w' := updateMdastNode context
               (getUpdatedMdastNode props (mdastNode context) content)
               (MkWorld (parentEditor w) (console w)
                        (updaterCalls w ++ [(mdastNode context, content)])) in
  Ok (w', true).
Proof.
  intros Hexp. unfold BLUR_COMMAND_handler. rewrite Hexp. reflexivity.
Qed.

Lemma exportedContent_returns block mdast :
  block = true \/ Mdast.root_children mdast <> [] ->
  exists content, exportedContent block mdast = Ok content.
Proof.
  unfold exportedContent. intros [->|Hne]; [eauto|].
  destruct block; [eauto|]. destruct (Mdast.root_children mdast); [congruence | eauto].
Qed.

(** X7: the blur handler throws in exactly one situation, whatever the
    parent surface holds: in inline mode, when the exported tree has no
    child; the error is then the [TypeError] of reading [children] of
    [undefined].  In block mode it never throws. *)
Theorem blur_throws_only_on_an_empty_inline_export :
  forall realm props context editor w,
    (throws (BLUR_COMMAND_handler realm props context editor w) <->
     block props = false /\
     Mdast.root_children (exportLexicalTreeToMdast realm editor) = []) /\
    (forall e,
        BLUR_COMMAND_handler realm props context editor w = Throw e ->
        e = MkError "TypeError" "Cannot read properties of undefined (reading 'children')").
Proof.
  intros realm props context editor w.
  destruct (block props) eqn:Hb;
    [|destruct (Mdast.root_children (exportLexicalTreeToMdast realm editor))
        as [|first rest] eqn:Hroot].
  - assert (Hexp : exportedContent (block props) (exportLexicalTreeToMdast realm editor)
                   = Ok (Mdast.root_children (exportLexicalTreeToMdast realm editor)))
      by (rewrite Hb; reflexivity).
    rewrite (BLUR_COMMAND_handler_run _ _ _ _ _ _ Hexp).
    destruct (updateMdastNode_run context
                (getUpdatedMdastNode props (mdastNode context)
                   (Mdast.root_children (exportLexicalTreeToMdast realm editor)))
                (MkWorld (parentEditor w) (console w)
                   (updaterCalls w ++
                    [(mdastNode context,
                      Mdast.root_children (exportLexicalTreeToMdast realm editor))])))
      as (w' & -> & _).
    simpl. split; [split; [contradiction | intros [? _]; discriminate] | discriminate].
  - unfold BLUR_COMMAND_handler, exportedContent. rewrite Hb, Hroot. simpl.
    split; [split; [intros _; split; reflexivity | intros _; exact I]|].
    intros e [= <-]. reflexivity.
  - assert (Hexp : exportedContent (block props) (exportLexicalTreeToMdast realm editor)
                   = Ok (Mdast.children first))
      by (rewrite Hb; eapply exportedContent_inline; exact Hroot).
    rewrite (BLUR_COMMAND_handler_run _ _ _ _ _ _ Hexp).
    destruct (updateMdastNode_run context
                (getUpdatedMdastNode props (mdastNode context) (Mdast.children first))
                (MkWorld (parentEditor w) (console w)
                   (updaterCalls w ++ [(mdastNode context, Mdast.children first)])))
      as (w' & -> & _).
    simpl. split; [split; [contradiction | intros [_ ?]; discriminate] | discriminate].
Qed.

(** X8: in inline mode the blur handler reads nothing of the exported tree
    but the children of its first node: the type of that node is not
    looked at, and every node after the first is dropped.  Two child
    surfaces whose first exported nodes have the same children lead to the
    same call of the updater and the same update of the parent. *)
Theorem inline_blur_reads_the_first_node_only :
  forall realm props context editor1 editor2 w first1 rest1 first2 rest2,
    block props = false ->
    Mdast.root_children (exportLexicalTreeToMdast realm editor1) = first1 :: rest1 ->
    Mdast.root_children (exportLexicalTreeToMdast realm editor2) = first2 :: rest2 ->
    Mdast.children first1 = Mdast.children first2 ->
    BLUR_COMMAND_handler realm props context editor1 w
    = BLUR_COMMAND_handler realm props context editor2 w.
Proof.
  intros realm props context editor1 editor2 w first1 rest1 first2 rest2 Hb H1 H2 Heq.
  rewrite (BLUR_COMMAND_handler_run realm props context editor1 w (Mdast.children first1))
    by (rewrite Hb; eapply exportedContent_inline; exact H1).
  rewrite (BLUR_COMMAND_handler_run realm props context editor2 w (Mdast.children first2))
    by (rewrite Hb; eapply exportedContent_inline; exact H2).
  rewrite Heq. reflexivity.
Qed.

Lemma inline_blur_reads_the_first_node_only_witness :
  let w := Sample.world onError_rethrow [Sample.owner] in
  let hello := MkNode "text" (Some "hello") [] in
  BLUR_COMMAND_handler Mirror.realm (Sample.props false) (Sample.context [])
    [MkNode "paragraph" None [hello]] w
  = BLUR_COMMAND_handler Mirror.realm (Sample.props false) (Sample.context [])
      [MkNode "heading" None [hello]; MkNode "paragraph" None [MkNode "text" (Some "more") []]] w.
Proof.
  cbv zeta.
  apply (inline_blur_reads_the_first_node_only Mirror.realm (Sample.props false)
           (Sample.context [])
           [MkNode "paragraph" None [MkNode "text" (Some "hello") []]]
           [MkNode "heading" None [MkNode "text" (Some "hello") []];
            MkNode "paragraph" None [MkNode "text" (Some "more") []]]
           (Sample.world onError_rethrow [Sample.owner])
           (Mdast.paragraph [Mdast.text "hello"]) []
           (Mdast.MkContent "heading" None [Mdast.text "hello"])
           [Mdast.paragraph [Mdast.text "more"]]);
    reflexivity.
Defined.





(** X11: a blur that follows the removal by backspace does nothing to the
    parent surface.  With pairwise distinct keys, after the backspace
    handler has removed the owning node, the blur handler of the same
    adapter (in block mode, or with a first exported node) returns [true],
    calls the updater once, and leaves the parent surface and the console
    as the removal left them: the removed node does not come back. *)
Theorem blur_after_backspace_changes_nothing :
  forall realm props context editor w owner,
    List.NoDup (map getKey (nodes (_editorState (parentEditor w)))) ->
    lookup_key (getKey (lexicalNode context))
               (nodes (_editorState (parentEditor w))) = Some owner ->
    block props = true \/
    Mdast.root_children (exportLexicalTreeToMdast realm editor) <> [] ->
    exists w1 w2,
      KEY_BACKSPACE_COMMAND_handler context (Some newline) w = Ok (w1, true) /\
      BLUR_COMMAND_handler realm props context editor w1 = Ok (w2, true) /\
      parentEditor w2 = parentEditor w1 /\
      console w2 = console w1 /\
      length (updaterCalls w2) = S (length (updaterCalls w)).
Proof.
  intros realm props context editor w owner Hnd Hlk Hexp.
  destruct (removeNode_run context w owner Hlk) as (w1 & Hrun & Hnodes & _ & _ & _ & Hu).
  destruct (exportedContent_returns (block props) _ Hexp) as (content & Hcontent).
  eexists w1, _. unfold KEY_BACKSPACE_COMMAND_handler.
  replace (is_newline (Some newline)) with true
    by (symmetry; apply is_newline_spec; reflexivity).
  split; [rewrite Hrun; reflexivity|].
  rewrite (BLUR_COMMAND_handler_run _ _ _ _ _ _ Hcontent).
  rewrite updateMdastNode_stale
    by (simpl; rewrite Hnodes; apply remove_key_gone; exact Hnd).
  split; [reflexivity|]. simpl. repeat split.
  rewrite length_app, Hu. simpl. lia.
Qed.

Lemma blur_after_backspace_changes_nothing_witness :
  let w := Sample.world onError_rethrow [Sample.before; Sample.owner; Sample.after] in
  exists w1 w2,
    KEY_BACKSPACE_COMMAND_handler (Sample.context []) (Some newline) w = Ok (w1, true) /\
    BLUR_COMMAND_handler Mirror.realm (Sample.props false) (Sample.context [])
      [createParagraphNode] w1 = Ok (w2, true) /\
    parentEditor w2 = parentEditor w1 /\
    console w2 = console w1 /\
    length (updaterCalls w2) = 1.
Proof.
  cbv zeta.
  apply (blur_after_backspace_changes_nothing Mirror.realm (Sample.props false)
           (Sample.context []) [createParagraphNode]
           (Sample.world onError_rethrow [Sample.before; Sample.owner; Sample.after])
           Sample.owner).
  - repeat constructor; simpl; intuition discriminate.
  - reflexivity.
  - right. discriminate.
Defined.

(** X12: a blur without edits is not free.  When the child surface is
    blurred as the first render imported it (content non-empty or inline
    mode, a pipeline that gives back what it imported, an updater that
    returns its node when given that node's own content, and the owning
    node carrying the mdast node of the context), every node of the parent
    surface is as before, and still one update tagged ['history-push'] is
    committed and the updater is called once. *)
Theorem unedited_blur_still_commits :
  forall realm props context outer w l1 l2,
    let content := getContent props (mdastNode context) in
    let key := getKey (lexicalNode context) in
    Pipeline.round_trips_on realm (theContent (block props) content) ->
    block props = false \/ content <> [] ->
    getUpdatedMdastNode props (mdastNode context) content = mdastNode context ->
    nodes (_editorState (parentEditor w)) = l1 ++ MkDecorator key (mdastNode context) :: l2 ->
    Forall (fun x => getKey x <> key) l1 ->
    exists inst w',
      mount realm props (Some context :: outer) = Ok inst /\
      BLUR_COMMAND_handler realm props context (editor inst) w = Ok (w', true) /\
      _editorState (parentEditor w') = _editorState (parentEditor w) /\
      _commits (parentEditor w')
        = _commits (parentEditor w)
            ++ [MkCommit ["history-push"] (_editorState (parentEditor w))] /\
      updaterCalls w' = updaterCalls w ++ [(mdastNode context, content)].
Proof.
  intros realm props context outer w l1 l2 content key Hrt Hcase Hlens Hnodes Hl1.
  eexists. eexists. split; [reflexivity|]. simpl editor. fold content.
  assert (Hexp : exportedContent (block props)
                   (exportLexicalTreeToMdast realm
                      (importEffect realm (block props) content createEditor))
                 = Ok content).
  { change (import_then_export realm (block props) content = Ok content).
    destruct (block props).
    - destruct Hcase as [?|Hne]; [discriminate|].
      rewrite import_then_export_block by exact Hrt.
      rewrite theContent_block_nonempty by exact Hne. reflexivity.
    - apply import_then_export_inline. exact Hrt. }
  rewrite (BLUR_COMMAND_handler_run _ _ _ _ _ _ Hexp). fold content. rewrite Hlens.
  set (wa := MkWorld (parentEditor w) (console w)
                     (updaterCalls w ++ [(mdastNode context, content)])).
  assert (Hlk : lookup_key key (nodes (_editorState (parentEditor wa)))
                = Some (MkDecorator key (mdastNode context))).
  { simpl. rewrite Hnodes. apply lookup_key_app; [exact Hl1 | reflexivity]. }
  rewrite (updateMdastNode_present context (mdastNode context) wa _ Hlk).
  cbn [Js.bind]. fold key.
  assert (Hsame : MkEditorState
                    (set_mdast key (mdastNode context)
                       (nodes (_editorState (parentEditor wa))))
                    (selection (_editorState (parentEditor wa)))
                  = _editorState (parentEditor w)).
  { simpl. rewrite Hnodes, (set_mdast_app key (mdastNode context) l1
                            (MkDecorator key (mdastNode context)) l2 Hl1 eq_refl).
    rewrite <- Hnodes. destruct (_editorState (parentEditor w)). reflexivity. }
  rewrite Hsame. split; [reflexivity|]. simpl. repeat split.
Qed.

Lemma unedited_blur_still_commits_witness :
  let context := Sample.context [Mdast.text "hello"] in
  let w := Sample.world onError_rethrow
             [Sample.before; MkDecorator "7" (Sample.callout [Mdast.text "hello"])] in
  exists inst w',
    mount Mirror.realm (Sample.props false) [Some context] = Ok inst /\
    BLUR_COMMAND_handler Mirror.realm (Sample.props false) context (editor inst) w
      = Ok (w', true) /\
    _editorState (parentEditor w') = _editorState (parentEditor w) /\
    _commits (parentEditor w') = [MkCommit ["history-push"] (_editorState (parentEditor w))] /\
    updaterCalls w' = [(Sample.callout [Mdast.text "hello"], [Mdast.text "hello"])].
Proof.
  cbv zeta.
  apply (unedited_blur_still_commits Mirror.realm (Sample.props false)
           (Sample.context [Mdast.text "hello"]) []
           (Sample.world onError_rethrow
              [Sample.before; MkDecorator "7" (Sample.callout [Mdast.text "hello"])])
           [Sample.before] []).
  - apply Mirror_round_trips.
  - left. reflexivity.
  - reflexivity.
  - reflexivity.
  - constructor; [discriminate | constructor].
Defined.

(** X13: what a blur writes is enough to rebuild the child surface.  Let
    the child surface export one paragraph (inline mode) or a non-empty
    list of nodes (block mode), let the import of that export into an
    empty root give the surface back, and let the updater be such that
    [getContent] reads back the content it was given.  Then after the
    blur, a first render under the owning node as it now is imports
    exactly the child surface that was blurred. *)
Theorem blur_then_mount_restores_the_child_surface :
  forall realm props context outer child w l1 owner l2 cs,
    let key := getKey (lexicalNode context) in
    exportLexicalTreeToMdast realm child
      = Mdast.MkRoot (if block props then cs else [Mdast.paragraph cs]) ->
    (block props = true -> cs <> []) ->
    importMdastTreeToLexical realm (importVisitors realm) []
      (exportLexicalTreeToMdast realm child) = Ok child ->
    getContent props (getUpdatedMdastNode props (mdastNode context) cs) = cs ->
    nodes (_editorState (parentEditor w)) = l1 ++ owner :: l2 ->
    getKey owner = key ->
    Forall (fun x => getKey x <> key) l1 ->
    exists w' owner',
      BLUR_COMMAND_handler realm props context child w = Ok (w', true) /\
      lookup_key key (nodes (_editorState (parentEditor w'))) = Some owner' /\
      mount realm props (Some (MkContext (getMdastNode owner') owner') :: outer)
        = Ok (MkInstance child (block props, importVisitors realm)).
Proof.
  intros realm props context outer child w l1 owner l2 cs key Hexport Hne Himport Hlens
    Hnodes Hkey Hl1.
  assert (Hexp : exportedContent (block props) (exportLexicalTreeToMdast realm child) = Ok cs).
  { rewrite Hexport. unfold exportedContent. destruct (block props); reflexivity. }
  rewrite (BLUR_COMMAND_handler_run _ _ _ _ _ _ Hexp).
  set (updated := getUpdatedMdastNode props (mdastNode context) cs) in *.
  set (wa := MkWorld (parentEditor w) (console w)
                     (updaterCalls w ++ [(mdastNode context, cs)])).
  assert (Hlk : lookup_key key (nodes (_editorState (parentEditor wa))) = Some owner).
  { simpl. rewrite Hnodes. apply lookup_key_app; assumption. }
  rewrite (updateMdastNode_present context updated wa owner Hlk). cbn [Js.bind].
  eexists. exists (MkDecorator key updated). split; [reflexivity|]. split.
  { simpl. eapply lookup_key_set_mdast_eq. exact Hlk. }
  unfold mount. simpl. rewrite Hlens. f_equal. f_equal.
  apply importEffect_returns. rewrite <- Himport, Hexport.
  f_equal. f_equal. unfold theContent.
  destruct (block props); [|reflexivity].
  destruct cs; [exfalso; apply Hne; reflexivity | reflexivity].
Qed.

Lemma blur_then_mount_restores_the_child_surface_witness :
  let w := Sample.world onError_rethrow [Sample.before; Sample.owner; Sample.after] in
  exists w' owner',
    BLUR_COMMAND_handler Mirror.realm (Sample.props false) (Sample.context [])
      Sample.typed_hello w = Ok (w', true) /\
    lookup_key "7" (nodes (_editorState (parentEditor w'))) = Some owner' /\
    mount Mirror.realm (Sample.props false)
      [Some (MkContext (getMdastNode owner') owner')]
      = Ok (MkInstance Sample.typed_hello (false, 0)).
Proof.
  cbv zeta.
  apply (blur_then_mount_restores_the_child_surface Mirror.realm (Sample.props false)
           (Sample.context []) [] Sample.typed_hello
           (Sample.world onError_rethrow [Sample.before; Sample.owner; Sample.after])
           [Sample.before] Sample.owner [Sample.after] [Mdast.text "hello"]);
    try reflexivity.
  - discriminate.
  - constructor; [discriminate | constructor].
Defined.



(** X16: the backspace handler when the owning node is in the parent
    surface.  On a visible text of exactly one newline it removes the
    owning node, its siblings keeping their order, reports nothing, calls
    no updater and returns [true]; on any other visible text, or without a
    root element, it returns [false] and leaves everything as it was. *)
Theorem backspace_removes_the_owner_or_passes :
  forall context w,
    (forall l1 owner l2,
        nodes (_editorState (parentEditor w)) = l1 ++ owner :: l2 ->
        getKey owner = getKey (lexicalNode context) ->
        Forall (fun x => getKey x <> getKey (lexicalNode context)) l1 ->
        exists w',
          KEY_BACKSPACE_COMMAND_handler context (Some newline) w = Ok (w', true) /\
          nodes (_editorState (parentEditor w')) = l1 ++ l2 /\
          console w' = console w /\
          updaterCalls w' = updaterCalls w) /\
    (forall innerText,
        innerText <> Some newline ->
        KEY_BACKSPACE_COMMAND_handler context innerText w = Ok (w, false)).
Proof.
  intros context w. split.
  - intros l1 owner l2 Hnodes Hkey Hl1.
    unfold KEY_BACKSPACE_COMMAND_handler.
    replace (is_newline (Some newline)) with true
      by (symmetry; apply is_newline_spec; reflexivity).
    rewrite (removeNode_present context w l1 owner l2 Hnodes Hkey Hl1). cbn [Js.bind].
    eexists. split; [reflexivity|]. cbn. repeat split.
  - intros innerText Hne. unfold KEY_BACKSPACE_COMMAND_handler.
    destruct (is_newline innerText) eqn:E; [|reflexivity].
    apply is_newline_spec in E. contradiction.
Qed.

Lemma backspace_removes_the_owner_or_passes_witness :
  let w := Sample.world onError_rethrow [Sample.before; Sample.owner; Sample.after] in
  (exists w',
      KEY_BACKSPACE_COMMAND_handler (Sample.context []) (Some newline) w = Ok (w', true) /\
      nodes (_editorState (parentEditor w')) = [Sample.before; Sample.after] /\
      console w' = console w /\
      updaterCalls w' = updaterCalls w) /\
  KEY_BACKSPACE_COMMAND_handler (Sample.context []) (Some "hello") w = Ok (w, false) /\
  KEY_BACKSPACE_COMMAND_handler (Sample.context []) None w = Ok (w, false).
Proof.
  cbv zeta.
  destruct (backspace_removes_the_owner_or_passes (Sample.context [])
              (Sample.world onError_rethrow [Sample.before; Sample.owner; Sample.after]))
    as [Hremove Hother].
  split; [|split].
  - apply (Hremove [Sample.before] Sample.owner [Sample.after]); try reflexivity.
    constructor; [discriminate | constructor].
  - apply Hother. discriminate.
  - apply Hother. discriminate.
Defined.

(** ** The updater of the documentation example on the store *)

(** X15: with the updater of the component's documentation,
    [(node, children) => ({ ...node, children })], line 183 changes no
    object: the updated node is a new object, every object that existed
    before is as it was, and the new object holds the type and value of
    the original with the exported content as its children. *)
Theorem documented_updater_creates_a_new_node :
  forall (h : Heap) t mdastNode cs content,
    represents h t mdastNode ->
    Forall2 (represents h) cs content ->
    exists updated h',
      blur_export spread_updater h mdastNode content = Some (updated, h') /\
      length h <= updated /\
      (forall x, x < length h -> h' !! x = h !! x) /\
      represents h' (Mdast.MkContent (Mdast.type t) (Mdast.value t) cs) updated.
Proof.
  intros h t a cs rs Hrep Hcs.
  destruct (structuredClone_is_deep h t a Hrep) as (copy & suf & Hclone & _ & Hcopy & _).
  unfold blur_export. rewrite Hclone. unfold spread_updater.
  destruct t as [ty v cs0].
  apply represents_unfold in Hcopy as (o & Ho & Hty & Hv & _).
  rewrite Ho. eexists. eexists. split; [reflexivity|].
  split; [rewrite length_app; lia|]. split.
  { intros x Hx. rewrite <- app_assoc. apply lookup_app_l. exact Hx. }
  apply represents_unfold. eexists. split.
  { rewrite lookup_app_r by lia. rewrite Nat.sub_diag. reflexivity. }
  simpl. repeat split; try assumption.
  eapply Forall2_impl; [exact Hcs|]. intros c r Hc.
  apply represents_app, represents_app. exact Hc.
Qed.

Lemma documented_updater_creates_a_new_node_witness :
  exists updated h',
    blur_export spread_updater sample_heap 1 [0] = Some (updated, h') /\
    length sample_heap <= updated /\
    (forall x, x < length sample_heap -> h' !! x = sample_heap !! x) /\
    represents h' (Mdast.MkContent "paragraph" None [Mdast.text "hello"]) updated.
Proof.
  apply (documented_updater_creates_a_new_node sample_heap
           (Mdast.paragraph [Mdast.text "hello"]) 1 [Mdast.text "hello"] [0]).
  - simpl. eexists. split; [reflexivity|]. repeat split.
    eexists. split; [reflexivity|]. repeat split.
  - constructor; [|constructor].
    simpl. eexists. split; [reflexivity|]. repeat split.
Defined.
